(** * Spark-Command simulators: a shallow embedding and its properties

    Two Python services are modelled here:

    - [deploy/scripts/spark-simulator.py], the mock Spark REST / UI API with
      its job store ([applications], [completed_apps]) and its background
      updater ([update_jobs]);
    - [deploy/scripts/gpu-simulator.py], the DCGM exporter mock with its
      per-GPU state and [update_metrics].

    Both scripts read two ambient sources: the [random] module and the wall
    clock.  They are modelled by a [World] that carries a tape of raw random
    draws and a tape of clock readings, threaded through a small state monad.
    Floats are modelled by exact rationals ([Q]); every property below is a
    comparison or an integer identity that does not depend on rounding. *)

From Stdlib Require Import QArith Qround Qminmax Lqa.
From stdpp Require Import gmap strings list pretty.

Close Scope Q_scope.
Local Open Scope Z_scope.

(** ** The runtime: random module and wall clock *)

Module Rt.

(** [rand_tape] is the sequence of raw outputs of the generator and
    [clock_tape] the sequence of instants (microseconds since the epoch) that
    successive clock reads return. *)
Record World := mkWorld {
  rand_tape : nat → N;
  rand_pos : nat;
  clock_tape : nat → Z;
  clock_pos : nat
}.

Definition M (A : Type) : Type := World → A * World.

#[global] Instance M_ret : MRet M := λ A (x : A) (w : World), (x, w).

#[global] Instance M_bind : MBind M := λ A B (f : A → M B) (m : M A) (w : World),
  let '(a, w') := m w in f a w'.

Definition draw : M N := λ w,
  (rand_tape w (rand_pos w),
   mkWorld (rand_tape w) (S (rand_pos w)) (clock_tape w) (clock_pos w)).

(** [datetime.now()] / [time.time()] *)
Definition now : M Z := λ w,
  (clock_tape w (clock_pos w),
   mkWorld (rand_tape w) (rand_pos w) (clock_tape w) (S (clock_pos w))).

(** [random.randint(a, b)]: an integer N with a <= N <= b, obtained as
    [a + randbelow(b - a + 1)]. *)
Definition randbelow (n : Z) : M Z :=
  k ← draw; mret (Z.of_N k mod n).

Definition randint (a b : Z) : M Z :=
  k ← randbelow (b - a + 1); mret (a + k).

(** [random.choice(seq)] is [seq[randbelow(len(seq))]]. *)
Definition choice {A} `{Inhabited A} (l : list A) : M A :=
  k ← randbelow (Z.of_nat (length l)); mret (l !!! Z.to_nat k).

(** [random.random()]: a 53-bit fraction in [0, 1); the denominator is 2^53. *)
Definition random : M Q :=
  k ← draw; mret (Qmake (Z.of_N k mod 9007199254740992) 9007199254740992).

(** [random.uniform(a, b)] is [a + (b - a) * random()].  Python computes it
    in binary64; here it is computed in exact rationals, so only bounds that
    also hold of the rounded values are drawn from it. *)
Definition uniform (a b : Q) : M Q :=
  r ← random; mret (a + (b - a) * r)%Q.

(** Monadic loop over a list, left to right. *)
Fixpoint for_each {A S} (f : A → S → M S) (l : list A) (s : S) : M S :=
  match l with
  | [] => mret s
  | x :: l' => s' ← f x s; for_each f l' s'
  end.

(** A tape given by its first entries; later reads return [d]. *)
Definition tape {A} (d : A) (l : list A) : nat → A := λ i, nth i l d.

(** Python's [int(x)] on a float: truncation toward zero. *)
Definition py_int (q : Q) : Z := Z.quot (Qnum q) (Zpos (Qden q)).

End Rt.

Import Rt.

(** ** JSON values, as [jsonify] serialises and [request.get_json] parses *)

#[warnings="-register-all"]
Inductive Json :=
| JNull
| JBool (b : bool)
| JInt (z : Z)
| JFloat (q : Q)
| JStr (s : string)
| JArr (l : list Json)
| JObj (fields : list (string * Json)).

#[global] Instance Json_inhabited : Inhabited Json := populate JNull.

(** Python truthiness of a parsed JSON value. *)
Definition truthy (j : Json) : bool :=
  match j with
  | JNull => false
  | JBool b => b
  | JInt z => negb (z =? 0)
  | JFloat q => negb (Qeq_bool q 0)
  | JStr s => negb (String.eqb s "")
  | JArr l => match l with [] => false | _ => true end
  | JObj l => match l with [] => false | _ => true end
  end.

(** [d.get(key, default)] on a parsed JSON object. *)
Fixpoint dict_get (key : string) (default : Json) (l : list (string * Json)) : Json :=
  match l with
  | [] => default
  | (k, v) :: l' => if String.eqb k key then v else dict_get key default l'
  end.

Inductive Body :=
| BJson (j : Json)
| BText (s : string).

Record Response := mkResponse { body : Body; status : Z }.

(** What a Flask view does: it returns a response or raises. *)
Inductive Outcome :=
| Returned (r : Response)
| Raised (exn : string).

Definition ok (j : Json) : Response := mkResponse (BJson j) 200.
Definition not_found (j : Json) : Response := mkResponse (BJson j) 404.

(** The calendar functions of [datetime] that the scripts call on an
    instant; they belong to the Python library and are taken abstractly. *)
Class Calendar := {
  strftime_compact : Z → string;   (* strftime('%Y%m%d%H%M%S') *)
  isoformat : Z → string           (* .isoformat() *)
}.

(** A concrete calendar for running the model on explicit inputs: instants
    print as whole seconds since the epoch, so two instants print alike
    exactly when they fall in the same second, as with the real formats. *)
Definition epoch_calendar : Calendar :=
  {| strftime_compact := λ t, pretty (t `div` 1000000);
     isoformat := λ t, pretty (t `div` 1000000) |}.

(** The world whose generator outputs [draws] (then zeros) and whose clock
    reads [instants] (then zero). *)
Definition world_of (draws : list N) (instants : list Z) : World :=
  mkWorld (tape 0%N draws) 0 (tape 0 instants) 0.

(** ** The job scheduler simulator: [spark-simulator.py] *)

Module Spark.

Inductive AppState := RUNNING | FINISHED | KILLED.

#[global] Instance AppState_eq_dec : EqDecision AppState.
Proof. solve_decision. Defined.

(** [state == "RUNNING"] and [state == "FINISHED"] *)
Definition is_running (s : AppState) : bool :=
  match s with RUNNING => true | _ => false end.

Definition is_finished (s : AppState) : bool :=
  match s with FINISHED => true | _ => false end.

Definition state_str (s : AppState) : string :=
  match s with
  | RUNNING => "RUNNING"
  | FINISHED => "FINISHED"
  | KILLED => "KILLED"
  end.

(** The ["stages"] and ["tasks"] sub-dictionaries. *)
Record Progress := mkProgress {
  p_total : Z;
  p_completed : Z;
  p_failed : Z
}.

Record Attempt := mkAttempt {
  t_attemptId : Z;
  t_startTime : string;
  t_endTime : option string;
  t_duration : Z;
  t_sparkUser : string;
  t_completed : bool
}.

(** One application dictionary, key for key. *)
Record App := mkApp {
  a_id : string;
  a_name : Json;
  a_state : AppState;
  a_startTime : string;
  a_duration : Z;
  a_sparkUser : string;
  a_completed : bool;
  a_attempts : list Attempt;
  a_executors : Z;
  a_cores : Z;
  a_memoryPerExecutor : Z;
  a_stages : Progress;
  a_tasks : Progress
}.

(** The Prometheus collectors declared at module level. *)
Definition duration_buckets : list Z := [10; 30; 60; 120; 300; 600; 1800; 3600].

Record Metrics := mkMetrics {
  spark_apps_total : Z;
  spark_apps_running : Z;
  spark_executors_total : Z;
  spark_cores_used : Z;
  spark_memory_used : Z;
  spark_job_duration : list Q      (* values passed to [observe], oldest first *)
}.

(** The process-wide store: the [applications] dict, the [completed_apps]
    list and the collectors. *)
Record Store := mkStore {
  applications : gmap string App;
  completed_apps : list App;
  metrics : Metrics
}.

Definition set_stage_completed (a : App) (c : Z) : App :=
  mkApp (a_id a) (a_name a) (a_state a) (a_startTime a) (a_duration a)
        (a_sparkUser a) (a_completed a) (a_attempts a) (a_executors a)
        (a_cores a) (a_memoryPerExecutor a)
        (mkProgress (p_total (a_stages a)) c (p_failed (a_stages a)))
        (a_tasks a).

Definition set_task_completed (a : App) (c : Z) : App :=
  mkApp (a_id a) (a_name a) (a_state a) (a_startTime a) (a_duration a)
        (a_sparkUser a) (a_completed a) (a_attempts a) (a_executors a)
        (a_cores a) (a_memoryPerExecutor a) (a_stages a)
        (mkProgress (p_total (a_tasks a)) c (p_failed (a_tasks a))).

(** [app["state"] = s; app["completed"] = True] *)
Definition set_terminal (a : App) (s : AppState) : App :=
  mkApp (a_id a) (a_name a) s (a_startTime a) (a_duration a)
        (a_sparkUser a) true (a_attempts a) (a_executors a)
        (a_cores a) (a_memoryPerExecutor a) (a_stages a) (a_tasks a).

Definition observe (v : Q) (m : Metrics) : Metrics :=
  mkMetrics (spark_apps_total m) (spark_apps_running m) (spark_executors_total m)
            (spark_cores_used m) (spark_memory_used m) (spark_job_duration m ++ [v]).

(** The two sides of the state machine RUNNING → {FINISHED, KILLED}. *)
Definition terminal (a : App) : Prop :=
  a_state a = FINISHED ∨ a_state a = KILLED.

Definition all_running (apps : gmap string App) : Prop :=
  map_Forall (λ _ a, a_state a = RUNNING) apps.

(** [st'] comes after [st]: its active jobs are all RUNNING and its history
    is the history of [st] followed by jobs in a terminal state. *)
Definition evolves (st st' : Store) : Prop :=
  all_running (applications st') ∧
  ∃ more, completed_apps st' = completed_apps st ++ more ∧ Forall terminal more.

Section WithCalendar.
Context {cal : Calendar}.

Definition generate_app_id : M string :=
  t ← now;
  r ← randint 1000 9999;
  mret ("app-" +:+ strftime_compact t +:+ "-" +:+ pretty r).

(** The id that [generate_app_id] returns when the clock reads [t] and the
    generator's next raw output is [k]. *)
Definition app_id_of (t : Z) (k : N) : string :=
  "app-" +:+ strftime_compact t +:+ "-" +:+ pretty (1000 + Z.of_N k `mod` 9000).

(** [(datetime.now() - start_time).total_seconds() * 1000], truncated. *)
Definition elapsed_ms (start : Z) : M Z :=
  t ← now; mret (Z.quot (t - start) 1000).

Definition create_mock_application (name : Json) (state : AppState) : M (string * App) :=
  app_id ← generate_app_id;
  t0 ← now;
  back ← randint 1 60;
  let start_time := t0 - back * 60 * 1000000 in
  duration ← elapsed_ms start_time;
  end_time ← (if is_running state then mret None
              else t ← now; mret (Some (isoformat t)));
  attempt_duration ← elapsed_ms start_time;
  executors ← randint 2 8;
  cores ← randint 4 20;
  memory ← choice [4096; 8192; 16384];
  stages_total ← randint 5 20;
  stages_completed ← randint 0 15;
  stages_failed ← randint 0 2;
  tasks_total ← randint 100 1000;
  tasks_completed ← randint 50 900;
  tasks_failed ← randint 0 10;
  mret (app_id,
        mkApp app_id name state (isoformat start_time) duration "dgx-admin"
              (is_finished state)
              [mkAttempt 1 (isoformat start_time) end_time attempt_duration
                         "dgx-admin" (is_finished state)]
              executors cores memory
              (mkProgress stages_total stages_completed stages_failed)
              (mkProgress tasks_total tasks_completed tasks_failed)).

Definition empty_metrics : Metrics := mkMetrics 0 0 0 0 0 [].

(** The two seeding loops that run when the module is loaded. *)
Definition seed_running (_ : nat) (st : Store) : M Store :=
  name ← choice ["ETL Pipeline"; "ML Training"; "Data Processing"; "RAPIDS SQL Query"];
  '(app_id, app) ← create_mock_application (JStr name) RUNNING;
  mret (mkStore (<[app_id := app]> (applications st)) (completed_apps st) (metrics st)).

Definition seed_finished (_ : nat) (st : Store) : M Store :=
  name ← choice ["Batch Job"; "Analytics Query"; "Feature Engineering"];
  '(app_id, app) ← create_mock_application (JStr name) FINISHED;
  mret (mkStore (applications st) (completed_apps st ++ [app]) (metrics st)).

Definition init_store : M Store :=
  st ← for_each seed_running (seq 0 3) (mkStore ∅ [] empty_metrics);
  for_each seed_finished (seq 0 5) st.

(** *** REST endpoints *)

Definition json_opt_str (o : option string) : Json :=
  match o with Some s => JStr s | None => JNull end.

Definition progress_json (p : Progress) : Json :=
  JObj [("total", JInt (p_total p)); ("completed", JInt (p_completed p));
        ("failed", JInt (p_failed p))].

Definition attempt_json (t : Attempt) : Json :=
  JObj [("attemptId", JInt (t_attemptId t)); ("startTime", JStr (t_startTime t));
        ("endTime", json_opt_str (t_endTime t)); ("duration", JInt (t_duration t));
        ("sparkUser", JStr (t_sparkUser t)); ("completed", JBool (t_completed t))].

(** [jsonify(app)] *)
Definition app_json (a : App) : Json :=
  JObj [("id", JStr (a_id a)); ("name", a_name a);
        ("state", JStr (state_str (a_state a)));
        ("startTime", JStr (a_startTime a)); ("duration", JInt (a_duration a));
        ("sparkUser", JStr (a_sparkUser a)); ("completed", JBool (a_completed a));
        ("attempts", JArr (attempt_json <$> a_attempts a));
        ("executors", JInt (a_executors a)); ("cores", JInt (a_cores a));
        ("memoryPerExecutor", JInt (a_memoryPerExecutor a));
        ("stages", progress_json (a_stages a)); ("tasks", progress_json (a_tasks a))].

Definition submission_not_found : Response :=
  not_found (JObj [("success", JBool false); ("message", JStr "Submission not found")]).

Definition get_submission_status (submission_id : string) (st : Store) : Response :=
  match applications st !! submission_id with
  | Some app =>
      ok (JObj [("action", JStr "SubmissionStatusResponse");
                ("driverState", JStr (state_str (a_state app)));
                ("serverSparkVersion", JStr "3.5.0");
                ("submissionId", JStr submission_id);
                ("success", JBool true);
                ("workerHostPort", JStr "192.168.100.10:7078");
                ("workerId", JStr "worker-20241219-192.168.100.10-7078")])
  | None => submission_not_found
  end.

(** [request.get_json() or {}] followed by [data.get('appResource', ...)].
    [parsed] is what [get_json] returned ([None] for Python's [None]); a
    truthy value that is not an object has no [get] attribute. *)
Definition app_resource (parsed : option Json) : option Json :=
  match parsed with
  | None => Some (JStr "Submitted Job")
  | Some j =>
      if truthy j then
        match j with
        | JObj fields => Some (dict_get "appResource" (JStr "Submitted Job") fields)
        | _ => None
        end
      else Some (JStr "Submitted Job")
  end.

Definition create_submission (parsed : option Json) (st : Store) : M (Outcome * Store) :=
  match app_resource parsed with
  | None => mret (Raised "AttributeError", st)
  | Some app_name =>
      '(app_id, app) ← create_mock_application app_name RUNNING;
      mret (Returned (ok (JObj [("action", JStr "CreateSubmissionResponse");
                                ("message", JStr ("Driver successfully submitted as " +:+ app_id));
                                ("serverSparkVersion", JStr "3.5.0");
                                ("submissionId", JStr app_id);
                                ("success", JBool true)])),
            mkStore (<[app_id := app]> (applications st)) (completed_apps st) (metrics st))
  end.

Definition kill_submission (submission_id : string) (st : Store) : Response * Store :=
  match applications st !! submission_id with
  | Some app =>
      (ok (JObj [("action", JStr "KillSubmissionResponse");
                 ("message", JStr ("Kill request for " +:+ submission_id +:+ " submitted"));
                 ("serverSparkVersion", JStr "3.5.0");
                 ("submissionId", JStr submission_id);
                 ("success", JBool true)]),
       mkStore (delete submission_id (applications st))
               (completed_apps st ++ [set_terminal app KILLED])
               (metrics st))
  | None => (submission_not_found, st)
  end.

(** [completed_apps[-10:]] *)
Definition last10 {A} (l : list A) : list A := drop (length l - 10)%nat l.

(** [list(applications.values()) + completed_apps[-10:]].  The active jobs
    come in the order of the map's keys, where the dict gives them in
    insertion order; nothing below depends on their order. *)
Definition all_apps (st : Store) : list App :=
  (map_to_list (applications st)).*2 ++ last10 (completed_apps st).

Definition list_applications (st : Store) : Response :=
  ok (JArr (app_json <$> all_apps st)).

Definition get_application (app_id : string) (st : Store) : Response :=
  match applications st !! app_id with
  | Some app => ok (app_json app)
  | None =>
      match List.find (λ app, String.eqb (a_id app) app_id) (completed_apps st) with
      | Some app => ok (app_json app)
      | None => not_found (JObj [("error", JStr "Application not found")])
      end
  end.

Definition Qltb (a b : Q) : bool := negb (Qle_bool b a).

Definition json_range (n : Z) : Json :=
  JArr ((λ i, JInt (Z.of_nat i)) <$> seq 0 (Z.to_nat n)).

Definition job_entry (i : nat) (jobs : list Json) : M (list Json) :=
  t1 ← now;
  r ← random;
  completion ← (if Qltb (3 # 10) r then t ← now; mret (JStr (isoformat t)) else mret JNull);
  n_stage_ids ← randint 1 5;
  st ← choice ["SUCCEEDED"; "RUNNING"; "FAILED"];
  numTasks ← randint 10 100;
  numActive ← randint 0 10;
  numCompleted ← randint 50 90;
  numFailed ← randint 0 5;
  mret (jobs ++ [JObj [("jobId", JInt (Z.of_nat i));
                       ("name", JStr ("Job " +:+ pretty i));
                       ("submissionTime", JStr (isoformat t1));
                       ("completionTime", completion);
                       ("stageIds", json_range n_stage_ids);
                       ("status", JStr st);
                       ("numTasks", JInt numTasks);
                       ("numActiveTasks", JInt numActive);
                       ("numCompletedTasks", JInt numCompleted);
                       ("numFailedTasks", JInt numFailed)]]).

Definition get_application_jobs (app_id : string) : M Response :=
  n ← randint 3 10;
  jobs ← for_each job_entry (seq 0 (Z.to_nat n)) [];
  mret (ok (JArr jobs)).

Definition stage_entry (i : nat) (stages : list Json) : M (list Json) :=
  st ← choice ["COMPLETE"; "ACTIVE"; "PENDING"];
  numTasks ← randint 10 100;
  numActive ← randint 0 10;
  numComplete ← randint 50 90;
  numFailed ← randint 0 2;
  runTime ← randint 1000 60000;
  inputBytes ← randint 1000000 1000000000;
  outputBytes ← randint 1000000 500000000;
  shuffleRead ← randint 0 100000000;
  shuffleWrite ← randint 0 100000000;
  mret (stages ++ [JObj [("stageId", JInt (Z.of_nat i));
                         ("attemptId", JInt 0);
                         ("name", JStr ("Stage " +:+ pretty i));
                         ("status", JStr st);
                         ("numTasks", JInt numTasks);
                         ("numActiveTasks", JInt numActive);
                         ("numCompleteTasks", JInt numComplete);
                         ("numFailedTasks", JInt numFailed);
                         ("executorRunTime", JInt runTime);
                         ("inputBytes", JInt inputBytes);
                         ("outputBytes", JInt outputBytes);
                         ("shuffleReadBytes", JInt shuffleRead);
                         ("shuffleWriteBytes", JInt shuffleWrite)]]).

Definition get_application_stages (app_id : string) : M Response :=
  n ← randint 5 15;
  stages ← for_each stage_entry (seq 0 (Z.to_nat n)) [];
  mret (ok (JArr stages)).

Definition driver_entry : M Json :=
  memoryUsed ← randint 100000000 500000000;
  activeTasks ← randint 0 4;
  completedTasks ← randint 10 100;
  totalTasks ← randint 10 100;
  totalDuration ← randint 10000 100000;
  totalGCTime ← randint 100 1000;
  totalInputBytes ← randint 1000000 100000000;
  totalShuffleRead ← randint 0 50000000;
  totalShuffleWrite ← randint 0 50000000;
  mret (JObj [("id", JStr "driver");
              ("hostPort", JStr "192.168.100.10:42000");
              ("isActive", JBool true);
              ("rddBlocks", JInt 0);
              ("memoryUsed", JInt memoryUsed);
              ("diskUsed", JInt 0);
              ("totalCores", JInt 4);
              ("maxTasks", JInt 4);
              ("activeTasks", JInt activeTasks);
              ("failedTasks", JInt 0);
              ("completedTasks", JInt completedTasks);
              ("totalTasks", JInt totalTasks);
              ("totalDuration", JInt totalDuration);
              ("totalGCTime", JInt totalGCTime);
              ("totalInputBytes", JInt totalInputBytes);
              ("totalShuffleRead", JInt totalShuffleRead);
              ("totalShuffleWrite", JInt totalShuffleWrite);
              ("maxMemory", JInt 4294967296)]).

Definition executor_entry (i : nat) (executors : list Json) : M (list Json) :=
  rddBlocks ← randint 0 10;
  memoryUsed ← randint 500000000 2000000000;
  diskUsed ← randint 0 1000000000;
  activeTasks ← randint 0 4;
  failedTasks ← randint 0 2;
  completedTasks ← randint 50 500;
  totalTasks ← randint 50 500;
  totalDuration ← randint 50000 500000;
  totalGCTime ← randint 500 5000;
  totalInputBytes ← randint 10000000 1000000000;
  totalShuffleRead ← randint 0 500000000;
  totalShuffleWrite ← randint 0 500000000;
  mret (executors ++
        [JObj [("id", JStr (pretty i));
               ("hostPort", JStr ("192.168.100." +:+ pretty (10 + Z.of_nat i mod 2)
                                  +:+ ":" +:+ pretty (42000 + Z.of_nat i)));
               ("isActive", JBool true);
               ("rddBlocks", JInt rddBlocks);
               ("memoryUsed", JInt memoryUsed);
               ("diskUsed", JInt diskUsed);
               ("totalCores", JInt 4);
               ("maxTasks", JInt 4);
               ("activeTasks", JInt activeTasks);
               ("failedTasks", JInt failedTasks);
               ("completedTasks", JInt completedTasks);
               ("totalTasks", JInt totalTasks);
               ("totalDuration", JInt totalDuration);
               ("totalGCTime", JInt totalGCTime);
               ("totalInputBytes", JInt totalInputBytes);
               ("totalShuffleRead", JInt totalShuffleRead);
               ("totalShuffleWrite", JInt totalShuffleWrite);
               ("maxMemory", JInt 8589934592)]]).

Definition get_application_executors (app_id : string) : M Response :=
  driver ← driver_entry;
  n ← randint 2 6;
  executors ← for_each executor_entry (seq 0 (Z.to_nat n)) [driver];
  mret (ok (JArr executors)).

(** The line ["# Spark metrics available at /metrics\n"]. *)
Definition metrics_pointer : string :=
  "# Spark metrics available at /metrics" +:+ String (Ascii.ascii_of_nat 10) "".

Definition sum_over (f : App → Z) (apps : gmap string App) : Z :=
  foldr Z.add 0 (f <$> (map_to_list apps).*2).

(** The view body refreshes the gauges and returns a fixed line of text;
    the exposition itself is mounted at [/metrics] by the dispatcher. *)
Definition prometheus_metrics (st : Store) : Response * Store :=
  let apps := applications st in
  (mkResponse (BText metrics_pointer) 200,
   mkStore apps (completed_apps st)
     (mkMetrics (Z.of_nat (size apps) + Z.of_nat (length (completed_apps st)))
                (Z.of_nat (size apps))
                (sum_over a_executors apps)
                (sum_over a_cores apps)
                (sum_over (λ a, a_memoryPerExecutor a * a_executors a * 1024 * 1024) apps)
                (spark_job_duration (metrics st)))).

Definition health : Response :=
  ok (JObj [("status", JStr "healthy"); ("service", JStr "spark-simulator")]).

(** *** The background updater *)

(** One iteration of the [for] loop of [update_jobs].  [app] comes from the
    snapshot [list(applications.items())] and is the very object stored
    under [app_id], so its in-place updates show in [applications]. *)
Definition update_one (item : string * App) (st : Store) : M Store :=
  let '(app_id, app) := item in
  let app :=
    if p_completed (a_stages app) <? p_total (a_stages app)
    then set_stage_completed app (p_completed (a_stages app) + 1)
    else app in
  app ← (if p_completed (a_tasks app) <? p_total (a_tasks app)
         then batch ← randint 5 20;
              mret (set_task_completed app
                      (Z.min (p_completed (a_tasks app) + batch) (p_total (a_tasks app))))
         else mret app);
  r ← random;
  if Qltb r (5 # 100) then
    let app := set_terminal app FINISHED in
    mret (mkStore (delete app_id (applications st))
                  (completed_apps st ++ [app])
                  (observe (a_duration app # 1000) (metrics st)))
  else
    mret (mkStore (<[app_id := app]> (applications st)) (completed_apps st) (metrics st)).

Definition maybe_new_job (st : Store) : M Store :=
  if (size (applications st) <? 5)%nat then
    r ← random;
    if Qltb r (1 # 10) then
      name ← choice ["ETL Pipeline"; "ML Training"; "Data Processing"; "RAPIDS SQL"];
      '(app_id, app) ← create_mock_application (JStr name) RUNNING;
      mret (mkStore (<[app_id := app]> (applications st)) (completed_apps st) (metrics st))
    else mret st
  else mret st.

(** One pass of the body of [while True] in [update_jobs], after the sleep.
    The snapshot is visited in the order of the map's keys, where the dict
    gives it in insertion order, and the pass runs as one step, where the
    thread runs unlocked next to the request handlers. *)
Definition update_jobs (st : Store) : M Store :=
  st ← for_each update_one (map_to_list (applications st)) st;
  maybe_new_job st.

(** *** Everything that can touch the store *)

(** The view functions and the updater pass, each run as one step. *)

Inductive Op :=
| Submit (parsed : option Json)
| Kill (submission_id : string)
| Status (submission_id : string)
| ListApps
| GetApp (app_id : string)
| JobsFor (app_id : string)
| StagesFor (app_id : string)
| ExecutorsFor (app_id : string)
| PromMetrics
| Health
| Tick.

Definition step (op : Op) (st : Store) : M Store :=
  match op with
  | Submit parsed => '(_, st') ← create_submission parsed st; mret st'
  | Kill i => mret (kill_submission i st).2
  | Status i => let _ := get_submission_status i st in mret st
  | ListApps => let _ := list_applications st in mret st
  | GetApp i => let _ := get_application i st in mret st
  | JobsFor i => _ ← get_application_jobs i; mret st
  | StagesFor i => _ ← get_application_stages i; mret st
  | ExecutorsFor i => _ ← get_application_executors i; mret st
  | PromMetrics => mret (prometheus_metrics st).2
  | Health => mret st
  | Tick => update_jobs st
  end.

Definition run (ops : list Op) (st : Store) : M Store := for_each step ops st.

End WithCalendar.

(** *** Vocabulary for the statements below *)

(** The answer of the status view for a RUNNING submission [i]. *)
Definition status_running (i : string) : Response :=
  ok (JObj [("action", JStr "SubmissionStatusResponse");
            ("driverState", JStr "RUNNING");
            ("serverSparkVersion", JStr "3.5.0");
            ("submissionId", JStr i);
            ("success", JBool true);
            ("workerHostPort", JStr "192.168.100.10:7078");
            ("workerId", JStr "worker-20241219-192.168.100.10-7078")]).

(** The answer of the create view for the new submission [i]. *)
Definition created (i : string) : Outcome :=
  Returned (ok (JObj [("action", JStr "CreateSubmissionResponse");
                      ("message", JStr ("Driver successfully submitted as " +:+ i));
                      ("serverSparkVersion", JStr "3.5.0");
                      ("submissionId", JStr i);
                      ("success", JBool true)])).

(** Completed counts within their totals. *)
Definition within_totals (a : App) : Prop :=
  p_completed (a_stages a) ≤ p_total (a_stages a) ∧
  p_completed (a_tasks a) ≤ p_total (a_tasks a).

(** The array carried by a JSON response (empty for any other body). *)
Definition array_of (r : Response) : list Json :=
  match body r with BJson (JArr l) => l | _ => [] end.

(** Every job is stored under its own id. *)
Definition keyed (apps : gmap string App) : Prop :=
  map_Forall (λ i a, a_id a = i) apps.

(** The five gauges, apart from the histogram. *)
Definition gauges (m : Metrics) : Z * Z * Z * Z * Z :=
  (spark_apps_total m, spark_apps_running m, spark_executors_total m,
   spark_cores_used m, spark_memory_used m).

(** What the updater leaves in the history. *)
Definition finished (a : App) : Prop :=
  a_state a = FINISHED ∧ a_completed a = true.

(** [entry[key]] on a serialised object ([null] when absent). *)
Definition field (key : string) (j : Json) : Json :=
  match j with JObj l => dict_get key JNull l | _ => JNull end.

(** The single attempt of a job is still open: no end time, not completed. *)
Definition open_attempt (a : App) : Prop :=
  ∃ t : Attempt, a_attempts a = [t] ∧ t_endTime t = None ∧ t_completed t = false.

(** The jobs of the store that still carry an open attempt: all active
    ones, and those of the history from position [n] on. *)
Definition attempts_open_from (n : nat) (st : Store) : Prop :=
  map_Forall (λ _ a, open_attempt a) (applications st) ∧
  Forall (λ a, open_attempt a ∧ a_completed a = true) (drop n (completed_apps st)).

(** *** Shapes of the sub-resource entries *)

Definition has_keys (keys : list string) (e : Json) : Prop :=
  ∃ fields, e = JObj fields ∧ fields.*1 = keys.

Definition int_field (key : string) (lo hi : Z) (e : Json) : Prop :=
  ∃ z, field key e = JInt z ∧ lo ≤ z ≤ hi.

Definition str_field (key : string) (allowed : list string) (e : Json) : Prop :=
  ∃ s, field key e = JStr s ∧ s ∈ allowed.

(** The [i]-th dictionary appended by [get_application_jobs]. *)
Definition is_job_entry (i : nat) (e : Json) : Prop :=
  has_keys ["jobId"; "name"; "submissionTime"; "completionTime"; "stageIds";
            "status"; "numTasks"; "numActiveTasks"; "numCompletedTasks";
            "numFailedTasks"] e ∧
  field "jobId" e = JInt (Z.of_nat i) ∧
  field "name" e = JStr ("Job " +:+ pretty i) ∧
  (∃ t, field "submissionTime" e = JStr t) ∧
  (field "completionTime" e = JNull ∨ ∃ t, field "completionTime" e = JStr t) ∧
  (∃ n, 1 ≤ n ≤ 5 ∧ field "stageIds" e = json_range n) ∧
  str_field "status" ["SUCCEEDED"; "RUNNING"; "FAILED"] e ∧
  int_field "numTasks" 10 100 e ∧ int_field "numActiveTasks" 0 10 e ∧
  int_field "numCompletedTasks" 50 90 e ∧ int_field "numFailedTasks" 0 5 e.

(** The [i]-th dictionary appended by [get_application_stages]. *)
Definition is_stage_entry (i : nat) (e : Json) : Prop :=
  has_keys ["stageId"; "attemptId"; "name"; "status"; "numTasks"; "numActiveTasks";
            "numCompleteTasks"; "numFailedTasks"; "executorRunTime"; "inputBytes";
            "outputBytes"; "shuffleReadBytes"; "shuffleWriteBytes"] e ∧
  field "stageId" e = JInt (Z.of_nat i) ∧ field "attemptId" e = JInt 0 ∧
  field "name" e = JStr ("Stage " +:+ pretty i) ∧
  str_field "status" ["COMPLETE"; "ACTIVE"; "PENDING"] e ∧
  int_field "numTasks" 10 100 e ∧ int_field "numActiveTasks" 0 10 e ∧
  int_field "numCompleteTasks" 50 90 e ∧ int_field "numFailedTasks" 0 2 e ∧
  int_field "executorRunTime" 1000 60000 e ∧
  int_field "inputBytes" 1000000 1000000000 e ∧
  int_field "outputBytes" 1000000 500000000 e ∧
  int_field "shuffleReadBytes" 0 100000000 e ∧
  int_field "shuffleWriteBytes" 0 100000000 e.

Definition executor_keys : list string :=
  ["id"; "hostPort"; "isActive"; "rddBlocks"; "memoryUsed"; "diskUsed"; "totalCores";
   "maxTasks"; "activeTasks"; "failedTasks"; "completedTasks"; "totalTasks";
   "totalDuration"; "totalGCTime"; "totalInputBytes"; "totalShuffleRead";
   "totalShuffleWrite"; "maxMemory"].

(** The first dictionary of [get_application_executors]. *)
Definition is_driver_entry (e : Json) : Prop :=
  has_keys executor_keys e ∧
  field "id" e = JStr "driver" ∧ field "hostPort" e = JStr "192.168.100.10:42000" ∧
  field "isActive" e = JBool true ∧ field "rddBlocks" e = JInt 0 ∧
  int_field "memoryUsed" 100000000 500000000 e ∧ field "diskUsed" e = JInt 0 ∧
  field "totalCores" e = JInt 4 ∧ field "maxTasks" e = JInt 4 ∧
  int_field "activeTasks" 0 4 e ∧ field "failedTasks" e = JInt 0 ∧
  int_field "completedTasks" 10 100 e ∧ int_field "totalTasks" 10 100 e ∧
  int_field "totalDuration" 10000 100000 e ∧ int_field "totalGCTime" 100 1000 e ∧
  int_field "totalInputBytes" 1000000 100000000 e ∧
  int_field "totalShuffleRead" 0 50000000 e ∧
  int_field "totalShuffleWrite" 0 50000000 e ∧
  field "maxMemory" e = JInt 4294967296.

(** The dictionary appended for executor [i]. *)
Definition is_executor_entry (i : nat) (e : Json) : Prop :=
  has_keys executor_keys e ∧
  field "id" e = JStr (pretty i) ∧
  field "hostPort" e =
    JStr ("192.168.100." +:+ pretty (10 + Z.of_nat i `mod` 2) +:+ ":" +:+
          pretty (42000 + Z.of_nat i)) ∧
  field "isActive" e = JBool true ∧ int_field "rddBlocks" 0 10 e ∧
  int_field "memoryUsed" 500000000 2000000000 e ∧
  int_field "diskUsed" 0 1000000000 e ∧
  field "totalCores" e = JInt 4 ∧ field "maxTasks" e = JInt 4 ∧
  int_field "activeTasks" 0 4 e ∧ int_field "failedTasks" 0 2 e ∧
  int_field "completedTasks" 50 500 e ∧ int_field "totalTasks" 50 500 e ∧
  int_field "totalDuration" 50000 500000 e ∧ int_field "totalGCTime" 500 5000 e ∧
  int_field "totalInputBytes" 10000000 1000000000 e ∧
  int_field "totalShuffleRead" 0 500000000 e ∧
  int_field "totalShuffleWrite" 0 500000000 e ∧
  field "maxMemory" e = JInt 8589934592.

(** *** The WSGI stack of lines 304-306 *)

(** A request path is kept as its segments: [/metrics/prometheus] is
    [["metrics"; "prometheus"]] and the empty path is [[]]. *)

(** [script in self.mounts], for the one mount [/metrics]. *)
Definition is_mount (script : list string) : bool :=
  match script with
  | [s] => String.eqb s "metrics"
  | _ => false
  end.

(** Which application answers, and the [PATH_INFO] it is given. *)
Inductive Target :=
| ToFlask (path_info : list string)
| ToMetrics (path_info : list string).

(** The loop of [DispatcherMiddleware.__call__]: while the script still has
    a slash, it is looked up in the mounts and otherwise loses its last
    segment to [path_info]; with no slash left the Flask application
    answers.  [rev_script] is the script, last segment first. *)
Fixpoint dispatch_from (rev_script : list string) (path_info : list string) : Target :=
  match rev_script with
  | [] => ToFlask path_info
  | last :: rest =>
      if is_mount (rev rev_script) then ToMetrics path_info
      else dispatch_from rest (last :: path_info)
  end.

Definition dispatch (path : list string) : Target := dispatch_from (rev path) [].

(** One sample line of the exposition; [s_le] is the [le] label of a
    histogram bucket ([Some None] for [+Inf]). *)
Record Series := mkSeries {
  s_name : string;
  s_le : option (option Z);
  s_value : Q
}.

(** One metric family: its [# HELP] and [# TYPE] lines and its samples. *)
Record Family := mkFamily {
  f_name : string;
  f_help : string;
  f_type : string;
  f_series : list Series
}.

Definition gauge_family (name help : string) (v : Z) : Family :=
  mkFamily name help "gauge" [mkSeries name None (inject_Z v)].

(** Observations that fall in the bucket [le = bound]. *)
Definition bucket_count (bound : Z) (observations : list Q) : Q :=
  inject_Z (Z.of_nat (length (filter (λ v, Qle_bool v (inject_Z bound) = true) observations))).

Definition histogram_family (name help : string) (bounds : list Z)
    (observations : list Q) : Family :=
  mkFamily name help "histogram"
    (((λ b, mkSeries (name +:+ "_bucket") (Some (Some b)) (bucket_count b observations))
        <$> bounds) ++
     [mkSeries (name +:+ "_bucket") (Some None)
               (inject_Z (Z.of_nat (length observations)));
      mkSeries (name +:+ "_count") None (inject_Z (Z.of_nat (length observations)));
      mkSeries (name +:+ "_sum") None (foldr Qplus 0%Q observations)]).

(** What the collectors of lines 21-27 contribute to the exposition of the
    default registry, in the order of their registration. *)
Definition module_families (m : Metrics) : list Family :=
  [gauge_family "spark_apps_total" "Total number of Spark applications"
                (spark_apps_total m);
   gauge_family "spark_apps_running" "Number of running applications"
                (spark_apps_running m);
   gauge_family "spark_executors_total" "Total number of executors"
                (spark_executors_total m);
   gauge_family "spark_cores_used" "Number of cores in use" (spark_cores_used m);
   gauge_family "spark_memory_used_bytes" "Memory used in bytes"
                (spark_memory_used m);
   histogram_family "spark_job_duration_seconds" "Job duration in seconds"
                    duration_buckets (spark_job_duration m)].

(** What the application of [make_wsgi_app()] answers a GET with: the
    exposition, whatever the rest of the path, except for the favicon. *)
Inductive Served :=
| Exposition (families : list Family)
| EmptyBody.

Definition prometheus_app (path_info : list string) (m : Metrics) : Served :=
  if bool_decide (path_info = ["favicon.ico"]) then EmptyBody
  else Exposition (module_families m).

(** A GET on [path] through [app.wsgi_app] as line 304 rebinds it: answered
    by the mounted registry application, or handed to the Flask
    application together with its [PATH_INFO]. *)
Inductive Routed :=
| ByRegistry (reply : Served)
| ByFlask (path_info : list string).

Definition wsgi_get (path : list string) (m : Metrics) : Routed :=
  match dispatch path with
  | ToMetrics path_info => ByRegistry (prometheus_app path_info m)
  | ToFlask path_info => ByFlask path_info
  end.

(** The [le] labels of the bucket samples of a histogram family. *)
Definition le_bounds (f : Family) : list (option Z) :=
  omap s_le (filter (λ s, s_name s = f_name f +:+ "_bucket") (f_series f)).

(** *** Loading the module *)

(** The global name [app] while the module body runs: the Flask application
    of line 16, until a seeding iteration binds it to the job it creates
    ([app_id, app = create_mock_application(...)], lines 76 and 83). *)
Inductive AppName :=
| NameFlask
| NameJob (job : App).

(** After the second seeding loop [app] is the job appended last. *)
Definition app_after_seeding (st : Store) : AppName :=
  match last (completed_apps st) with
  | Some job => NameJob job
  | None => NameFlask
  end.

Inductive Loaded :=
| Serving (st : Store)
| LoadFails (exc : string) (st : Store).

Section ModuleLoad.
Context {cal : Calendar}.

(** The module body up to the first decorator, [@app.route(...)] at line
    93, which needs [app] to be the Flask application. *)
Definition load_module : M Loaded :=
  st ← init_store;
  match app_after_seeding st with
  | NameFlask => mret (Serving st)
  | NameJob _ => mret (LoadFails "AttributeError" st)
  end.

End ModuleLoad.

(** A job as a submission without body creates it under the epoch calendar,
    and the store that holds just this job. *)
Definition sample_job : string * App :=
  (create_mock_application (cal := epoch_calendar) (JStr "Submitted Job") RUNNING
     (world_of [234; 10; 3; 5; 1; 7; 4; 0; 300; 100; 2]%N [])).1.

Definition sample_store : Store :=
  mkStore (<[sample_job.1 := sample_job.2]> ∅) [] (mkMetrics 0 0 0 0 0 []).

End Spark.

(** ** The device telemetry simulator: [gpu-simulator.py] *)

(** [math.sin] belongs to the Python library and is taken abstractly. *)
Class MathLib := { math_sin : Q → Q }.

Module Gpu.

Local Open Scope Q_scope.

Record NodeInfo := mkNode { gpu_index_of : Z; role : string; port : Z }.

Definition NODES : list (string * NodeInfo) :=
  [("dgx-spark-01", mkNode 0 "master" 9400);
   ("dgx-spark-02", mkNode 0 "worker" 9401)].

Record GPUState := mkGPU {
  hostname : string;
  gpu_index : Z;
  uuid : string;
  model : string;
  base_util : Q;
  base_temp : Q;
  base_power : Q;
  total_memory : Z;
  energy : Q
}.

(** The [{:04d}] format of a non-negative integer printed as [s]: zeros on
    the left up to [width] characters. *)
Fixpoint zeros (n : nat) : string :=
  match n with
  | O => ""
  | S n' => "0" +:+ zeros n'
  end.

Definition zero_pad (width : nat) (s : string) : string :=
  zeros (width - String.length s) +:+ s.

(** [GPUState.__init__] *)
Definition new_gpu (hostname : string) (gpu_index : Z) : M GPUState :=
  r ← randint 1000 9999;
  base_util ← uniform 60 90;
  base_temp ← uniform 45 55;
  base_power ← uniform 80 120;
  mret (mkGPU hostname gpu_index
              ("GPU-" +:+ hostname +:+ "-" +:+ zero_pad 4 (pretty gpu_index)
                 +:+ "-" +:+ pretty r)
              "NVIDIA GB10 Blackwell"
              base_util base_temp base_power (128 * 1024)%Z 0).

Record Labels := mkLabels {
  l_gpu : string;
  l_UUID : string;
  l_device : string;
  l_modelName : string;
  l_Hostname : string
}.

Definition get_labels (s : GPUState) : Labels :=
  mkLabels (pretty (gpu_index s)) (uuid s) ("nvidia" +:+ pretty (gpu_index s))
           (model s) (hostname s).

(** The values of the nineteen gauges for one label set. *)
Record Sample := mkSample {
  DCGM_FI_DEV_GPU_UTIL : Q;
  DCGM_FI_DEV_MEM_COPY_UTIL : Q;
  DCGM_FI_DEV_FB_USED : Z;
  DCGM_FI_DEV_FB_FREE : Z;
  DCGM_FI_DEV_FB_TOTAL : Z;
  DCGM_FI_DEV_GPU_TEMP : Q;
  DCGM_FI_DEV_MEMORY_TEMP : Q;
  DCGM_FI_DEV_POWER_USAGE : Q;
  DCGM_FI_DEV_TOTAL_ENERGY_CONSUMPTION : Q;
  DCGM_FI_DEV_SM_CLOCK : Z;
  DCGM_FI_DEV_MEM_CLOCK : Z;
  DCGM_FI_DEV_PCIE_TX_THROUGHPUT : Z;
  DCGM_FI_DEV_PCIE_RX_THROUGHPUT : Z;
  DCGM_FI_DEV_NVLINK_BANDWIDTH_TOTAL : Q;
  DCGM_FI_PROF_PIPE_TENSOR_ACTIVE : Q;
  DCGM_FI_PROF_DRAM_ACTIVE : Q;
  DCGM_FI_DEV_ECC_SBE_VOL_TOTAL : Z;
  DCGM_FI_DEV_ECC_DBE_VOL_TOTAL : Z;
  DCGM_FI_DEV_XID_ERRORS : Z
}.

(** The process-wide state: the [gpu_states] dict in roster order and the
    gauge children that [update_metrics] has set, one per label set. *)
Record Store := mkStore {
  gpu_states : list (string * GPUState);
  registry : list (Labels * Sample)
}.

(** Python's two-argument [max] and [min]: the first argument wins ties. *)
Definition py_max (a b : Q) : Q := if Spark.Qltb a b then b else a.
Definition py_min (a b : Q) : Q := if Spark.Qltb b a then b else a.

Definition add_energy (s : GPUState) (e : Q) : GPUState :=
  mkGPU (hostname s) (gpu_index s) (uuid s) (model s) (base_util s)
        (base_temp s) (base_power s) (total_memory s) (energy s + e).

(** What a scrape must find in the gauges of one device. *)
Definition percent (q : Q) : Prop := 0 <= q ∧ q <= 100.

Definition sample_ok (c : Sample) : Prop :=
  (DCGM_FI_DEV_FB_USED c + DCGM_FI_DEV_FB_FREE c = DCGM_FI_DEV_FB_TOTAL c)%Z ∧
  (10 <= DCGM_FI_DEV_GPU_UTIL c ∧ DCGM_FI_DEV_GPU_UTIL c <= 99) ∧
  percent (DCGM_FI_DEV_MEM_COPY_UTIL c) ∧
  percent (DCGM_FI_PROF_PIPE_TENSOR_ACTIVE c) ∧
  percent (DCGM_FI_PROF_DRAM_ACTIVE c).

(** One update of a device [s] into [s'] with gauges [c]: identity and
    baselines stay, and the energy grows by the published power times the
    five-second interval in millijoules. *)
Definition device_step (s s' : GPUState) (c : Sample) : Prop :=
  hostname s' = hostname s ∧ uuid s' = uuid s ∧
  base_power s' = base_power s ∧ total_memory s' = total_memory s ∧
  energy s' = energy s + DCGM_FI_DEV_POWER_USAGE c * 5 * 1000 ∧
  DCGM_FI_DEV_TOTAL_ENERGY_CONSUMPTION c = energy s' ∧
  base_power s + 3 <= DCGM_FI_DEV_POWER_USAGE c.


(** One entry of an update pass: the device keeps its key, its gauges are
    filed under its own labels, and the device update is as above. *)
Definition pass_step (p p' : string * GPUState) (c : Labels * Sample) : Prop :=
  p'.1 = p.1 ∧ c.1 = get_labels p.2 ∧ device_step p.2 p'.2 c.2 ∧ sample_ok c.2.


(** What one device update publishes, gauge by gauge, in terms of the
    utilisation it drew. *)
Definition device_ranges (s : GPUState) (c : Sample) : Prop :=
  let util := DCGM_FI_DEV_GPU_UTIL c in
  (10 <= util ∧ util <= 99) ∧
  (0 <= DCGM_FI_DEV_MEM_COPY_UTIL c ∧ DCGM_FI_DEV_MEM_COPY_UTIL c <= util) ∧
  (0 <= DCGM_FI_PROF_PIPE_TENSOR_ACTIVE c ∧
   DCGM_FI_PROF_PIPE_TENSOR_ACTIVE c <= util) ∧
  (0 <= DCGM_FI_PROF_DRAM_ACTIVE c ∧ DCGM_FI_PROF_DRAM_ACTIVE c <= util) ∧
  (DCGM_FI_DEV_FB_TOTAL c = total_memory s ∧
   DCGM_FI_DEV_FB_USED c =
     py_int (inject_Z (total_memory s) * ((3 # 10) + (5 # 10) * (util * (1 # 100)))) ∧
   DCGM_FI_DEV_FB_FREE c = (total_memory s - DCGM_FI_DEV_FB_USED c)%Z) ∧
  (base_temp s + util * (1 # 100) * 25 - 2 <= DCGM_FI_DEV_GPU_TEMP c ∧
   DCGM_FI_DEV_GPU_TEMP c <= base_temp s + util * (1 # 100) * 25 + 2 ∧
   DCGM_FI_DEV_GPU_TEMP c - 10 <= DCGM_FI_DEV_MEMORY_TEMP c ∧
   DCGM_FI_DEV_MEMORY_TEMP c <= DCGM_FI_DEV_GPU_TEMP c - 5) ∧
  (base_power s + util * (1 # 100) * 80 - 5 <= DCGM_FI_DEV_POWER_USAGE c ∧
   DCGM_FI_DEV_POWER_USAGE c <= base_power s + util * (1 # 100) * 80 + 5) ∧
  (-50 ≤ DCGM_FI_DEV_SM_CLOCK c - (1500 + py_int (util * (1 # 100) * 800)) ≤ 50 ∧
   -20 ≤ DCGM_FI_DEV_MEM_CLOCK c - (1600 + py_int (util * (1 # 100) * 400)) ≤ 20)%Z ∧
  (-100000 ≤ DCGM_FI_DEV_PCIE_TX_THROUGHPUT c - py_int (util * (1 # 100) * 15000000) ≤ 100000 ∧
   -100000 ≤ DCGM_FI_DEV_PCIE_RX_THROUGHPUT c - py_int (util * (1 # 100) * 12000000) ≤ 100000)%Z ∧
  (util * (1 # 100) * 200 - 10 <= DCGM_FI_DEV_NVLINK_BANDWIDTH_TOTAL c ∧
   DCGM_FI_DEV_NVLINK_BANDWIDTH_TOTAL c <= util * (1 # 100) * 200 + 10) ∧
  (DCGM_FI_DEV_ECC_SBE_VOL_TOTAL c = 0 ∧ DCGM_FI_DEV_ECC_DBE_VOL_TOTAL c = 0 ∧
   DCGM_FI_DEV_XID_ERRORS c = 0)%Z.

(** A device as [GPUState.__init__] builds it, whatever its energy. *)
Definition factory_device (s : GPUState) : Prop :=
  gpu_index s = 0%Z ∧ model s = "NVIDIA GB10 Blackwell" ∧
  total_memory s = 131072%Z ∧
  (60 <= base_util s ∧ base_util s <= 90) ∧
  (45 <= base_temp s ∧ base_temp s <= 55) ∧
  (80 <= base_power s ∧ base_power s <= 120) ∧
  ∃ r : Z, (1000 ≤ r ≤ 9999)%Z ∧
           uuid s = "GPU-" +:+ hostname s +:+ "-0000-" +:+ pretty r.

(** The derived utilisations are a share of the GPU utilisation, and the
    error gauges are set to zero. *)
Definition derived_ranges (c : Sample) : Prop :=
  let util := DCGM_FI_DEV_GPU_UTIL c in
  (0 <= DCGM_FI_DEV_MEM_COPY_UTIL c ∧ DCGM_FI_DEV_MEM_COPY_UTIL c <= util) ∧
  (0 <= DCGM_FI_PROF_PIPE_TENSOR_ACTIVE c ∧
   DCGM_FI_PROF_PIPE_TENSOR_ACTIVE c <= util) ∧
  (0 <= DCGM_FI_PROF_DRAM_ACTIVE c ∧ DCGM_FI_PROF_DRAM_ACTIVE c <= util) ∧
  (DCGM_FI_DEV_ECC_SBE_VOL_TOTAL c = 0 ∧ DCGM_FI_DEV_ECC_DBE_VOL_TOTAL c = 0 ∧
   DCGM_FI_DEV_XID_ERRORS c = 0)%Z.

Definition link_ranges (c : Sample) : Prop :=
  (1530 ≤ DCGM_FI_DEV_SM_CLOCK c ≤ 2342 ∧
   1620 ≤ DCGM_FI_DEV_MEM_CLOCK c ≤ 2016 ∧
   1400000 ≤ DCGM_FI_DEV_PCIE_TX_THROUGHPUT c ≤ 14950000 ∧
   1100000 ≤ DCGM_FI_DEV_PCIE_RX_THROUGHPUT c ≤ 11980000)%Z ∧
  10 <= DCGM_FI_DEV_NVLINK_BANDWIDTH_TOTAL c ∧
  DCGM_FI_DEV_NVLINK_BANDWIDTH_TOTAL c <= 208.

(** The ranges of a device built by [GPUState.__init__]. *)
Definition factory_ranges (c : Sample) : Prop :=
  (83 <= DCGM_FI_DEV_POWER_USAGE c ∧ DCGM_FI_DEV_POWER_USAGE c <= (2042 # 10)) ∧
  ((455 # 10) <= DCGM_FI_DEV_GPU_TEMP c ∧ DCGM_FI_DEV_GPU_TEMP c <= (8175 # 100)) ∧
  (DCGM_FI_DEV_GPU_TEMP c - 10 <= DCGM_FI_DEV_MEMORY_TEMP c ∧
   DCGM_FI_DEV_MEMORY_TEMP c <= DCGM_FI_DEV_GPU_TEMP c - 5) ∧
  (DCGM_FI_DEV_FB_TOTAL c = 131072 ∧
   45875 ≤ DCGM_FI_DEV_FB_USED c ≤ 104202 ∧
   26870 ≤ DCGM_FI_DEV_FB_FREE c ≤ 85197)%Z.

(** [health()] *)
Definition health (st : Store) : Json :=
  JObj [("status", JStr "healthy"); ("service", JStr "gpu-simulator");
        ("gpus", JInt (Z.of_nat (length (gpu_states st))))].

Section WithMath.
Context {mathlib : MathLib}.

(** The gpu_states comprehension evaluated when the module is loaded. *)
Definition init_one (node : string * NodeInfo) (st : Store) : M Store :=
  s ← new_gpu node.1 (gpu_index_of node.2);
  mret (mkStore (gpu_states st ++ [(node.1, s)]) (registry st)).

Definition init_store : M Store := for_each init_one NODES (mkStore [] []).

(** The body of the [for] loop of [update_metrics] for one device at wall
    time [t] (seconds). *)
Definition update_device (t : Q) (s : GPUState) : M (GPUState * Sample) :=
  let workload_factor := (5 # 10) + (5 # 10) * math_sin (t / 60) in
  noise ← uniform (-5) 5;
  let util := py_min 99 (py_max 10 (base_util s * workload_factor + noise + 30)) in
  f_mem ← uniform (3 # 10) (6 # 10);
  let mem_util := util * f_mem in
  let mem_used := py_int (inject_Z (total_memory s) * ((3 # 10) + (5 # 10) * (util / 100))) in
  let mem_free := (total_memory s - mem_used)%Z in
  j_temp ← uniform (-2) 2;
  let temp := base_temp s + (util / 100) * 25 + j_temp in
  d_temp ← uniform 5 10;
  j_power ← uniform (-5) 5;
  let power := base_power s + (util / 100) * 80 + j_power in
  let s' := add_energy s (power * 5 * 1000) in
  j_sm ← randint (-50) 50;
  j_mem ← randint (-20) 20;
  let sm_clock := (1500 + py_int ((util / 100) * 800) + j_sm)%Z in
  let mem_clock := (1600 + py_int ((util / 100) * 400) + j_mem)%Z in
  j_tx ← randint (-100000) 100000;
  j_rx ← randint (-100000) 100000;
  let pcie_tx := (py_int ((util / 100) * 15000000) + j_tx)%Z in
  let pcie_rx := (py_int ((util / 100) * 12000000) + j_rx)%Z in
  j_nv ← uniform (-10) 10;
  let nvlink_bw := (util / 100) * 200 + j_nv in
  f_tensor ← uniform (7 # 10) (95 # 100);
  f_dram ← uniform (4 # 10) (7 # 10);
  mret (s',
        mkSample util mem_util mem_used mem_free (total_memory s)
                 temp (temp - d_temp) power (energy s')
                 sm_clock mem_clock pcie_tx pcie_rx nvlink_bw
                 (util * f_tensor) (util * f_dram) 0 0 0).

(** The [for] loop of [update_metrics]: every device is rewritten in place,
    in roster order, and each of its gauge children is set again. *)
Fixpoint update_all (t : Q) (l : list (string * GPUState))
  : M (list (string * GPUState) * list (Labels * Sample)) :=
  match l with
  | [] => mret ([], [])
  | (name, s) :: l' =>
      '(s', sample) ← update_device t s;
      '(states, children) ← update_all t l';
      mret ((name, s') :: states, (get_labels s, sample) :: children)
  end.

(** [update_metrics()] *)
Definition update_metrics (st : Store) : M Store :=
  t ← now;
  '(states, children) ← update_all (t # 1000000) (gpu_states st);
  mret (mkStore states children).

(** The [/metrics] view: an update pass, then the current gauge values. *)
Definition metrics (st : Store) : M (list (Labels * Sample) * Store) :=
  st' ← update_metrics st;
  mret (registry st', st').

(** [n] update passes in a row, whether from [metrics_loop] or from scrapes. *)
Fixpoint passes (n : nat) (st : Store) : M Store :=
  match n with
  | O => mret st
  | S n' => st' ← update_metrics st; passes n' st'
  end.

End WithMath.

End Gpu.

(** * Properties *)

(** ** Reasoning about the runtime *)

(** Runs the monad's plumbing and the primitive reads of the world. *)
Ltac run_m :=
  cbv [mbind M_bind mret M_ret draw now randbelow randint random uniform choice
       rand_tape rand_pos clock_tape clock_pos];
  cbn [fst snd].

(** Adds the range of every [_ mod c] in the goal to the context. *)
Ltac mod_bounds :=
  repeat match goal with
  | |- context [?a `mod` ?b] =>
      lazymatch goal with
      | _ : 0 ≤ a `mod` b < b |- _ => fail
      | _ => assert (0 ≤ a `mod` b < b) by (apply Z.mod_pos_bound; lia)
      end
  end.

Section RuntimeFacts.

Lemma randint_range (a b : Z) (w : World) :
  a ≤ b → a ≤ (randint a b w).1 ≤ b.
Proof.
  intros Hab. destruct w as [rt rp ct cp]. run_m. mod_bounds. lia.
Qed.

Lemma random_range (w : World) :
  (0 <= (random w).1)%Q ∧ ((random w).1 < 1)%Q.
Proof.
  destruct w as [rt rp ct cp]. run_m. unfold Qle, Qlt. cbn [Qnum Qden].
  mod_bounds. lia.
Qed.

Lemma uniform_range (a b : Q) (w : World) :
  (a <= b)%Q → (a <= (uniform a b w).1)%Q ∧ ((uniform a b w).1 <= b)%Q.
Proof.
  intros Hab. pose proof (random_range w) as [H0 H1].
  unfold uniform. change ((random ≫= _) w) with
    (let '(r, w') := random w in (a + (b - a) * r, w')%Q).
  destruct (random w) as [r w1]. cbn [fst] in *. nra.
Qed.

Lemma run_bind {A B} (m : M A) (f : A → M B) (w : World) :
  (m ≫= f) w = let '(a, w') := m w in f a w'.
Proof. reflexivity. Qed.

Lemma for_each_cons {A S} (f : A → S → M S) (x : A) (l : list A) (s : S) (w : World) :
  for_each f (x :: l) s w = for_each f l (f x s w).1 (f x s w).2.
Proof. cbn. rewrite run_bind. by destruct (f x s w). Qed.

Lemma for_each_app {A S} (f : A → S → M S) (l1 l2 : list A) (s : S) (w : World) :
  for_each f (l1 ++ l2) s w =
  let '(s', w') := for_each f l1 s w in for_each f l2 s' w'.
Proof.
  revert s w. induction l1 as [|x l1 IH]; intros s w; [done|].
  rewrite <- app_comm_cons, !for_each_cons. apply IH.
Qed.

(** A loop invariant rule for [for_each]. *)
Lemma for_each_inv {A S} (P : S → Prop) (f : A → S → M S) (l : list A) :
  (∀ x s w, P s → P (f x s w).1) →
  ∀ s w, P s → P (for_each f l s w).1.
Proof.
  intros Hf. induction l as [|x l IH]; intros s w Hs; [done|].
  rewrite for_each_cons. apply IH, Hf, Hs.
Qed.

(** A loop whose body appends one element grows its list by the number of
    rounds. *)
Lemma for_each_length {A B} (f : A → list B → M (list B)) (l : list A) :
  (∀ x s w, length (f x s w).1 = S (length s)) →
  ∀ s w, length (for_each f l s w).1 = (length s + length l)%nat.
Proof.
  intros Hf. induction l as [|x l IH]; intros s w.
  - cbn. lia.
  - rewrite for_each_cons, IH, Hf. cbn. lia.
Qed.

(** The loop rule when the invariant relies on a property of the items. *)
Lemma for_each_inv_items {A S} (P : S → Prop) (Q : A → Prop)
    (f : A → S → M S) (l : list A) :
  (∀ x s w, Q x → P s → P (f x s w).1) →
  Forall Q l → ∀ s w, P s → P (for_each f l s w).1.
Proof.
  intros Hf Hl. induction Hl as [|x l Hx Hl IH]; intros s w Hs; [done|].
  rewrite for_each_cons. by apply IH, Hf.
Qed.

Lemma choice_mod_elem {A} `{Inhabited A} (l : list A) (k : Z) :
  l ≠ [] → l !!! Z.to_nat (k `mod` Z.of_nat (length l)) ∈ l.
Proof.
  intros Hl. apply list_elem_of_lookup_total_2.
  assert (0 < Z.of_nat (length l)) by (destruct l; [done|cbn; lia]).
  pose proof (Z.mod_pos_bound k (Z.of_nat (length l)) ltac:(lia)). lia.
Qed.

End RuntimeFacts.

(** ** Strings: what makes two generated ids equal *)

Section StringFacts.

Lemma string_length_app (s1 s2 : string) :
  String.length (s1 +:+ s2) = (String.length s1 + String.length s2)%nat.
Proof. induction s1 as [|c s1 IH]; simpl; [done|]. by rewrite IH. Qed.

(** Two concatenations with tails of one length agree part by part. *)
Lemma string_app_inj_tail (s1 s2 d1 d2 : string) :
  String.length d1 = String.length d2 →
  s1 +:+ d1 = s2 +:+ d2 → s1 = s2 ∧ d1 = d2.
Proof.
  revert s2. induction s1 as [|c s1 IH]; intros [|c' s2] Hlen Heq; simpl in Heq.
  - done.
  - apply (f_equal String.length) in Heq.
    rewrite !string_length_app in Heq. simpl in Heq. lia.
  - apply (f_equal String.length) in Heq.
    rewrite !string_length_app in Heq. simpl in Heq. lia.
  - injection Heq as -> Heq. destruct (IH s2 Hlen Heq) as [-> ->]. done.
Qed.

(** Every suffix that [randint(1000, 9999)] can yield prints on four digits. *)
Lemma pretty_suffix_length (k : Z) :
  0 ≤ k < 9000 → String.length (pretty (1000 + k)) = 4%nat.
Proof.
  intros Hk.
  assert (Hall : forallb (λ n, Nat.eqb (String.length (pretty (1000 + Z.of_nat n))) 4)
                         (seq 0 (Z.to_nat 9000)) = true) by (vm_compute; reflexivity).
  rewrite forallb_forall in Hall.
  specialize (Hall (Z.to_nat k)). rewrite Z2Nat.id in Hall by lia.
  apply Nat.eqb_eq, Hall, in_seq. lia.
Qed.

End StringFacts.

(** ** The job scheduler simulator *)

Module SparkFacts.
Import Spark.

Ltac run_create :=
  unfold create_mock_application, generate_app_id, elapsed_ms, is_running; run_m;
  cbn [fst snd a_id a_name a_state a_completed a_stages a_tasks
       p_total p_completed p_failed].

(** Settles one conjunct of an entry predicate after the body has run. *)
Ltac entry_field :=
  first
    [ reflexivity
    | eexists; split; reflexivity
    | eexists; reflexivity
    | eexists; split; [reflexivity | mod_bounds; lia]
    | eexists; split; [|reflexivity]; mod_bounds; lia
    | left; reflexivity
    | right; eexists; reflexivity
    | eexists; split; [reflexivity | by apply choice_mod_elem] ].

Section Facts.
Context {cal : Calendar}.

Lemma last10_snoc {A} (l : list A) (x : A) : x ∈ last10 (l ++ [x]).
Proof.
  unfold last10. rewrite length_app. cbn.
  rewrite drop_app_le by lia. set_solver.
Qed.

Lemma last10_sub {A} (l : list A) (x : A) : x ∈ last10 l → x ∈ l.
Proof.
  unfold last10. intros H.
  rewrite <- (take_drop (length l - 10) l). apply elem_of_app. by right.
Qed.

Lemma create_mock_application_spec (name : Json) (state : AppState) (w : World) :
  let r := create_mock_application name state w in
  let app := r.1.2 in
  r.1.1 = app_id_of (clock_tape w (clock_pos w)) (rand_tape w (rand_pos w)) ∧
  a_id app = r.1.1 ∧ a_name app = name ∧ a_state app = state ∧
  a_completed app = is_finished state ∧
  (5 ≤ p_total (a_stages app) ≤ 20 ∧ 0 ≤ p_completed (a_stages app) ≤ 15) ∧
  (100 ≤ p_total (a_tasks app) ≤ 1000 ∧ 50 ≤ p_completed (a_tasks app) ≤ 900).
Proof.
  destruct state; run_create; do 5 (split; [reflexivity|]); mod_bounds; lia.
Qed.

(** From here on the application builder is used through its specification. *)
#[local] Opaque create_mock_application.

Lemma create_submission_ok (parsed : option Json) (name : Json) (st : Store) (w : World) :
  app_resource parsed = Some name →
  let r := create_mock_application name RUNNING w in
  create_submission parsed st w =
    (Returned (ok (JObj [("action", JStr "CreateSubmissionResponse");
                         ("message", JStr ("Driver successfully submitted as " +:+ r.1.1));
                         ("serverSparkVersion", JStr "3.5.0");
                         ("submissionId", JStr r.1.1);
                         ("success", JBool true)])),
     mkStore (<[r.1.1 := r.1.2]> (applications st)) (completed_apps st) (metrics st),
     r.2).
Proof.
  intros Hname. unfold create_submission. rewrite Hname. cbn zeta.
  rewrite run_bind. by destruct (create_mock_application name RUNNING w) as [[i app] w'].
Qed.

Lemma elem_of_all_apps_active (st : Store) (i : string) (app : App) :
  applications st !! i = Some app → app ∈ all_apps st.
Proof.
  intros Hi. unfold all_apps. apply elem_of_app. left.
  apply list_elem_of_fmap. exists (i, app). split; [done|].
  by apply elem_of_map_to_list.
Qed.

Lemma kill_known (i : string) (app : App) (st : Store) :
  applications st !! i = Some app →
  kill_submission i st =
    (ok (JObj [("action", JStr "KillSubmissionResponse");
               ("message", JStr ("Kill request for " +:+ i +:+ " submitted"));
               ("serverSparkVersion", JStr "3.5.0");
               ("submissionId", JStr i);
               ("success", JBool true)]),
     mkStore (delete i (applications st))
             (completed_apps st ++ [set_terminal app KILLED]) (metrics st)).
Proof. intros Hi. unfold kill_submission. by rewrite Hi. Qed.

(** C7: [kill] on an id that is not a key of [applications] answers 404
    with the body [{"success": false, "message": "Submission not found"}]
    and returns the store as it was: neither [applications] nor
    [completed_apps] (nor the collectors) change. *)
Theorem kill_unknown_not_found (i : string) (st : Store) :
  applications st !! i = None →
  kill_submission i st =
    (mkResponse (BJson (JObj [("success", JBool false);
                              ("message", JStr "Submission not found")])) 404,
     st).
Proof. intros Hi. unfold kill_submission. by rewrite Hi. Qed.

(** C6: the life of one submission.  After [create_submission] with
    [appResource = name] the response is a 200 carrying the new id, and the
    listing holds a RUNNING application with that id and name; [kill] on the
    id answers 200 with [success = true], removes the id from [applications]
    and appends the application to [completed_apps] with state KILLED and
    [completed = true]; the status view then answers 404; and the listing
    holds the KILLED application, taken from the history part. *)
Theorem submit_list_kill_status_list (name : string) (st : Store) (w : World) :
  let created := create_submission (Some (JObj [("appResource", JStr name)])) st w in
  let st1 := created.1.2 in
  ∃ (i : string) (app : App),
    created.1.1 =
      Returned (ok (JObj [("action", JStr "CreateSubmissionResponse");
                          ("message", JStr ("Driver successfully submitted as " +:+ i));
                          ("serverSparkVersion", JStr "3.5.0");
                          ("submissionId", JStr i);
                          ("success", JBool true)])) ∧
    (a_id app = i ∧ a_name app = JStr name ∧ a_state app = RUNNING) ∧
    (app ∈ all_apps st1 ∧
     list_applications st1 = mkResponse (BJson (JArr (app_json <$> all_apps st1))) 200) ∧
    let killed := kill_submission i st1 in
    let st2 := killed.2 in
    let app' := set_terminal app KILLED in
    (status killed.1 = 200 ∧
     body killed.1 =
       BJson (JObj [("action", JStr "KillSubmissionResponse");
                    ("message", JStr ("Kill request for " +:+ i +:+ " submitted"));
                    ("serverSparkVersion", JStr "3.5.0");
                    ("submissionId", JStr i);
                    ("success", JBool true)])) ∧
    (applications st2 !! i = None ∧
     completed_apps st2 = completed_apps st ++ [app'] ∧
     a_id app' = i ∧ a_state app' = KILLED ∧ a_completed app' = true) ∧
    get_submission_status i st2 = submission_not_found ∧
    status (get_submission_status i st2) = 404 ∧
    (app' ∈ last10 (completed_apps st2) ∧ app' ∈ all_apps st2 ∧
     list_applications st2 = mkResponse (BJson (JArr (app_json <$> all_apps st2))) 200).
Proof.
  intros created st1.
  pose proof (create_submission_ok (Some (JObj [("appResource", JStr name)]))
                (JStr name) st w eq_refl) as Hc. cbn zeta in Hc.
  pose proof (create_mock_application_spec (JStr name) RUNNING w) as Hspec.
  cbn zeta in Hspec. destruct Hspec as (_ & Hid & Hname & Hstate & _).
  destruct (create_mock_application (JStr name) RUNNING w) as [[i app] w'].
  cbn [fst snd] in Hc, Hid, Hname, Hstate.
  subst st1. subst created. rewrite Hc. clear Hc. cbn [fst snd].
  exists i, app.
  assert (Hin : <[i := app]> (applications st) !! i = Some app)
    by apply lookup_insert_eq.
  split; [reflexivity|]. split; [by rewrite Hid|].
  split; [split; [|reflexivity]; by eapply elem_of_all_apps_active|].
  rewrite (kill_known _ app) by exact Hin. cbn [fst snd applications completed_apps].
  split; [split; reflexivity|].
  split.
  { split; [apply lookup_delete_eq|]. split; [reflexivity|].
    split; [exact Hid|]. split; reflexivity. }
  unfold get_submission_status. cbn [applications]. rewrite lookup_delete_eq.
  split; [reflexivity|]. split; [reflexivity|].
  split; [apply last10_snoc|]. split; [|reflexivity].
  unfold all_apps. apply elem_of_app. right. apply last10_snoc.
Qed.

Lemma app_id_of_eq (t1 t2 : Z) (k1 k2 : N) :
  app_id_of t1 k1 = app_id_of t2 k2 ↔
  strftime_compact t1 = strftime_compact t2 ∧
  Z.of_N k1 `mod` 9000 = Z.of_N k2 `mod` 9000.
Proof.
  unfold app_id_of. split.
  - intros Heq. simpl in Heq. injection Heq as Heq.
    assert (Hk1 : 0 ≤ Z.of_N k1 `mod` 9000 < 9000) by (apply Z.mod_pos_bound; lia).
    assert (Hk2 : 0 ≤ Z.of_N k2 `mod` 9000 < 9000) by (apply Z.mod_pos_bound; lia).
    change ("" +:+ ?x) with x in Heq.
    apply (string_app_inj_tail (strftime_compact t1) (strftime_compact t2))
      in Heq as [Hts Hd].
    + split; [exact Hts|]. simpl in Hd. injection Hd as Hd.
      change ("" +:+ ?x) with x in Hd. apply (inj pretty) in Hd. lia.
    + rewrite !string_length_app, !pretty_suffix_length by lia. reflexivity.
  - intros [-> ->]. done.
Qed.

(** C2, as the code has it: [create_submission] stores a RUNNING application
    under the id [app-<timestamp>-<suffix>] and returns that id with a 200;
    the application's progress is drawn at random (completed stages in
    0..15, completed tasks in 50..900) rather than zeroed; the status view
    called at once on the id answers RUNNING; a second submission is stored
    and answered in the same way; the two ids are equal exactly when the
    timestamps print alike and the same suffix is drawn; and when the ids
    differ, both jobs are in the active set afterwards. *)
Theorem submit_running_status_ids (name1 name2 : Json) (st : Store) (w : World) :
  let r1 := create_submission (Some (JObj [("appResource", name1)])) st w in
  let r2 := create_submission (Some (JObj [("appResource", name2)])) r1.1.2 r1.2 in
  let t1 := clock_tape w (clock_pos w) in
  let k1 := rand_tape w (rand_pos w) in
  let t2 := clock_tape r1.2 (clock_pos r1.2) in
  let k2 := rand_tape r1.2 (rand_pos r1.2) in
  let i1 := app_id_of t1 k1 in
  let i2 := app_id_of t2 k2 in
  ∃ a1 a2 : App,
    (r1.1.1 = created i1 ∧
     r1.1.2 = mkStore (<[i1 := a1]> (applications st)) (completed_apps st) (metrics st) ∧
     applications r1.1.2 !! i1 = Some a1 ∧
     a_id a1 = i1 ∧ a_name a1 = name1 ∧ a_state a1 = RUNNING ∧
     0 ≤ p_completed (a_stages a1) ≤ 15 ∧ 50 ≤ p_completed (a_tasks a1) ≤ 900) ∧
    get_submission_status i1 r1.1.2 = status_running i1 ∧
    (r2.1.1 = created i2 ∧
     r2.1.2 = mkStore (<[i2 := a2]> (<[i1 := a1]> (applications st)))
                      (completed_apps st) (metrics st) ∧
     a_id a2 = i2 ∧ a_name a2 = name2 ∧ a_state a2 = RUNNING ∧
     get_submission_status i2 r2.1.2 = status_running i2) ∧
    (i1 = i2 ↔
     strftime_compact t1 = strftime_compact t2 ∧
     Z.of_N k1 `mod` 9000 = Z.of_N k2 `mod` 9000) ∧
    (i1 ≠ i2 →
     applications r2.1.2 !! i1 = Some a1 ∧ applications r2.1.2 !! i2 = Some a2).
Proof.
  intros r1 r2 t1 k1 t2 k2 i1 i2.
  assert (Hiff : i1 = i2 ↔
                 strftime_compact t1 = strftime_compact t2 ∧
                 Z.of_N k1 `mod` 9000 = Z.of_N k2 `mod` 9000) by apply app_id_of_eq.
  pose proof (create_submission_ok (Some (JObj [("appResource", name1)])) name1 st w eq_refl)
    as Hc1. cbn zeta in Hc1.
  pose proof (create_mock_application_spec name1 RUNNING w) as S1. cbn zeta in S1.
  destruct S1 as (Hi1 & Hid1 & Hn1 & Hs1 & _ & (_ & Hst1) & (_ & Hta1)).
  fold t1 k1 i1 in Hi1.
  destruct (create_mock_application name1 RUNNING w) as [[j1 a1] w1].
  cbn [fst snd] in Hc1, Hi1, Hid1, Hn1, Hs1, Hst1, Hta1.
  assert (Hr1 : r1 = (created j1,
                      mkStore (<[j1 := a1]> (applications st)) (completed_apps st) (metrics st),
                      w1)) by exact Hc1.
  clearbody r1. subst r1. cbn [fst snd] in r2, t2, k2, i2.
  pose proof (create_submission_ok (Some (JObj [("appResource", name2)])) name2
                (mkStore (<[j1 := a1]> (applications st)) (completed_apps st) (metrics st))
                w1 eq_refl) as Hc2. cbn zeta in Hc2.
  pose proof (create_mock_application_spec name2 RUNNING w1) as S2. cbn zeta in S2.
  destruct S2 as (Hi2 & Hid2 & Hn2 & Hs2 & _). fold t2 k2 i2 in Hi2.
  destruct (create_mock_application name2 RUNNING w1) as [[j2 a2] w2].
  cbn [fst snd applications completed_apps metrics] in Hc2, Hi2, Hid2, Hn2, Hs2.
  assert (Hr2 : r2 = (created j2,
                      mkStore (<[j2 := a2]> (<[j1 := a1]> (applications st)))
                              (completed_apps st) (metrics st),
                      w2)) by exact Hc2.
  clearbody r2 t1 k1 t2 k2 i1 i2. subst r2 j1 j2. cbn [fst snd].
  assert (Hlook1 : <[i1 := a1]> (applications st) !! i1 = Some a1)
    by apply lookup_insert_eq.
  assert (Hlook2 : <[i2 := a2]> (<[i1 := a1]> (applications st)) !! i2 = Some a2)
    by apply lookup_insert_eq.
  exists a1, a2.
  split.
  { cbn [applications]. split; [reflexivity|]. split; [reflexivity|].
    split; [exact Hlook1|]. split; [exact Hid1|]. split; [exact Hn1|].
    split; [exact Hs1|]. split; [exact Hst1|exact Hta1]. }
  split.
  { unfold get_submission_status. cbn [applications]. rewrite Hlook1, Hs1. reflexivity. }
  split.
  { split; [reflexivity|]. split; [reflexivity|]. split; [exact Hid2|].
    split; [exact Hn2|]. split; [exact Hs2|].
    unfold get_submission_status. cbn [applications]. rewrite Hlook2, Hs2. reflexivity. }
  split; [exact Hiff|].
  intros Hne. cbn [applications]. split; [|exact Hlook2].
  rewrite lookup_insert_ne by (intros E; apply Hne; by rewrite E). exact Hlook1.
Qed.

#[local] Transparent create_mock_application.

(** C2, a run of the code: two submissions within one second that draw the
    same suffix (here 234, printed 1234) get one and the same id, the second
    overwrites the first in [applications], and the stored job starts with
    250 completed tasks and 12 completed stages, not zero. *)
Lemma submit_twice_same_id :
  let t := 1700000000000000 in
  let w := world_of [234; 10; 3; 5; 1; 7; 4; 0; 300; 100; 2;
                     234; 20; 1; 2; 0; 9; 12; 1; 500; 200; 0]%N
                    [t; t + 10; t + 20; t + 30;
                     t + 500000; t + 500010; t + 500020; t + 500030] in
  let r1 := create_submission (cal := epoch_calendar) None (mkStore ∅ [] empty_metrics) w in
  let r2 := create_submission (cal := epoch_calendar) None r1.1.2 r1.2 in
  r1.1.1 = created "app-1700000000-1234" ∧
  r2.1.1 = created "app-1700000000-1234" ∧
  size (applications r2.1.2) = 1%nat ∧
  (λ a, (p_completed (a_stages a), p_completed (a_tasks a)))
    <$> applications r2.1.2 !! "app-1700000000-1234" = Some (12, 250).
Proof. vm_compute. done. Qed.

(** *** Progress counters *)

(** The updater's own arithmetic respects the totals: a pass over one
    application never carries a completed count past its total, and leaves a
    count that is already past it alone. *)
Lemma update_one_counts (i : string) (a : App) (st : Store) (w : World) :
  let st' := (update_one (i, a) st w).1 in
  ∃ a' : App,
    (applications st' !! i = Some a' ∨
     (applications st' !! i = None ∧
      completed_apps st' = completed_apps st ++ [set_terminal a' FINISHED])) ∧
    p_total (a_stages a') = p_total (a_stages a) ∧
    p_total (a_tasks a') = p_total (a_tasks a) ∧
    p_completed (a_stages a') ≤ Z.max (p_completed (a_stages a)) (p_total (a_stages a)) ∧
    p_completed (a_tasks a') ≤ Z.max (p_completed (a_tasks a)) (p_total (a_tasks a)) ∧
    p_completed (a_stages a) ≤ p_completed (a_stages a') ∧
    p_completed (a_tasks a) ≤ p_completed (a_tasks a').
Proof.
  destruct w as [rt rp ct cp]. unfold update_one. cbv zeta.
  destruct (Z.ltb_spec (p_completed (a_stages a)) (p_total (a_stages a))) as [H1|H1];
    cbn [a_tasks a_stages p_total p_completed set_stage_completed];
    (destruct (Z.ltb_spec (p_completed (a_tasks a)) (p_total (a_tasks a))) as [H2|H2]);
    run_m;
    match goal with |- context [Qltb ?r ?c] => destruct (Qltb r c) end;
    cbn [fst applications completed_apps];
    (eexists; split;
     [first [left; apply lookup_insert_eq
            | right; split; [apply lookup_delete_eq | reflexivity]]|]);
    cbn [a_tasks a_stages p_total p_completed set_stage_completed set_task_completed];
    mod_bounds; lia.
Qed.

(** C1 at a concrete run of the code: when [randint(5, 20)] returns 5 for the
    stage total and [randint(0, 15)] returns 15 for the completed stages
    (raw draws 0 and 15), and likewise 100 total and 900 completed tasks
    (raw draws 0 and 850), the submitted job is stored with completed
    counts above its totals. *)
Theorem created_job_exceeds_totals :
  let w := world_of [0; 0; 0; 0; 0; 0; 15; 0; 0; 850; 0]%N [] in
  let r := create_submission (cal := epoch_calendar) None (mkStore ∅ [] empty_metrics) w in
  r.1.1 = created "app-0-1000" ∧
  match applications r.1.2 !! "app-0-1000" with
  | Some a =>
      a_state a = RUNNING ∧
      a_stages a = mkProgress 5 15 0 ∧ a_tasks a = mkProgress 100 900 0 ∧
      ¬ within_totals a
  | None => False
  end.
Proof.
  vm_compute. split; [done|]. split; [done|]. split; [done|]. split; [done|].
  intros [H _]. by apply H.
Qed.

(** *** Request bodies of the create endpoint *)

(** Bodies that the view tolerates: no JSON at all, a falsy JSON value, or
    an object (with or without [appResource]); the job is then created and
    the answer is a 200 with the new id. *)
Lemma create_submission_tolerant (parsed : option Json) (st : Store) (w : World) :
  (parsed = None ∨ (∃ j, parsed = Some j ∧ truthy j = false) ∨
   ∃ fields, parsed = Some (JObj fields)) →
  ∃ name : Json,
    app_resource parsed = Some name ∧
    (create_submission parsed st w).1.1 =
      created (create_mock_application name RUNNING w).1.1.
Proof.
  intros Hp.
  assert (∃ name, app_resource parsed = Some name) as [name Hname].
  { destruct Hp as [-> | [(j & -> & Hj) | (fields & ->)]]; cbn.
    - eauto.
    - rewrite Hj. eauto.
    - destruct fields; cbn; eauto. }
  exists name. split; [done|].
  by rewrite (create_submission_ok _ name).
Qed.

(** C9 at a concrete request: a POST whose body is the JSON array [[1]].
    [request.get_json()] returns the list, which is truthy, so [data] is the
    list and [data.get] raises AttributeError: the view fails (a 500) and
    nothing is created, whatever the store and the world. *)
Theorem create_submission_array_body_raises (st : Store) (w : World) :
  create_submission (Some (JArr [JInt 1])) st w = (Raised "AttributeError", st, w).
Proof. reflexivity. Qed.

(** *** The metrics view *)


(** *** The dispatcher and the registry application *)

Lemma dispatch_from_mount (l acc : list string) :
  dispatch_from (l ++ ["metrics"]) acc = ToMetrics (rev l ++ acc).
Proof.
  revert acc. induction l as [|x l IH]; intros acc; [reflexivity|].
  cbn [app dispatch_from].
  replace (is_mount (rev (x :: l ++ ["metrics"]))) with false.
  - rewrite IH. cbn [rev]. by rewrite <- app_assoc.
  - cbn [rev]. rewrite rev_app_distr. cbn [rev app].
    by destruct (rev l ++ [x]) eqn:E; [destruct (rev l); discriminate|].
Qed.

Lemma dispatch_metrics (p : list string) :
  dispatch ("metrics" :: p) = ToMetrics p.
Proof.
  unfold dispatch. cbn [rev]. rewrite dispatch_from_mount.
  by rewrite rev_involutive, app_nil_r.
Qed.

Lemma dispatch_from_flask (l acc : list string) :
  last l ≠ Some "metrics"%string → dispatch_from l acc = ToFlask (rev l ++ acc).
Proof.
  revert acc. induction l as [|x l IH]; intros acc Hl; [reflexivity|].
  cbn [dispatch_from].
  replace (is_mount (rev (x :: l))) with false.
  - rewrite IH.
    + cbn [rev]. by rewrite <- app_assoc.
    + destruct l as [|y l]; [done|]. exact Hl.
  - cbn [rev]. destruct l as [|y l].
    + cbn. cbn in Hl. destruct (String.eqb_spec x "metrics") as [->|]; [|done].
      by destruct Hl.
    + cbn [rev]. rewrite <- app_assoc. cbn [app].
      by destruct (rev l) as [|? [|? ?]].
Qed.

Lemma dispatch_flask (path : list string) :
  head path ≠ Some "metrics"%string → dispatch path = ToFlask path.
Proof.
  intros Hh. unfold dispatch. rewrite dispatch_from_flask.
  - by rewrite rev_involutive, app_nil_r.
  - destruct path as [|x p]; [done|]. cbn [rev]. rewrite last_snoc.
    cbn in Hh. exact Hh.
Qed.

(** C8. A GET on [/metrics/prometheus] is answered by the registry
    application mounted at [/metrics] (the dispatcher strips the last
    segment and finds the mount), with the exposition of the collectors:
    the gauges [spark_apps_total], [spark_apps_running],
    [spark_executors_total], [spark_cores_used] and
    [spark_memory_used_bytes] at their current values, and the histogram
    [spark_job_duration_seconds] with the buckets 10, 30, 60, 120, 300,
    600, 1800, 3600 and [+Inf]. *)
Theorem metrics_prometheus_serves_exposition (st : Store) :
  let families := module_families (metrics st) in
  wsgi_get ["metrics"; "prometheus"] (metrics st) = ByRegistry (Exposition families) ∧
  (λ f, (f_name f, f_type f)) <$> families =
    [("spark_apps_total", "gauge"); ("spark_apps_running", "gauge");
     ("spark_executors_total", "gauge"); ("spark_cores_used", "gauge");
     ("spark_memory_used_bytes", "gauge");
     ("spark_job_duration_seconds", "histogram")]%string ∧
  (λ f, s_value <$> f_series f) <$> take 5 families =
    [[inject_Z (spark_apps_total (metrics st))];
     [inject_Z (spark_apps_running (metrics st))];
     [inject_Z (spark_executors_total (metrics st))];
     [inject_Z (spark_cores_used (metrics st))];
     [inject_Z (spark_memory_used (metrics st))]] ∧
  (∃ h, last families = Some h ∧
        f_type h = "histogram"%string ∧
        le_bounds h = [Some 10; Some 30; Some 60; Some 120; Some 300; Some 600;
                       Some 1800; Some 3600; None] ∧
        (∀ b, b ∈ duration_buckets →
              mkSeries "spark_job_duration_seconds_bucket" (Some (Some b))
                       (bucket_count b (spark_job_duration (metrics st)))
                ∈ f_series h)).
Proof.
  cbv zeta. split; [reflexivity|]. split; [reflexivity|]. split; [reflexivity|].
  eexists. split; [reflexivity|]. split; [reflexivity|].
  split; [vm_compute; reflexivity|].
  intros b Hb. cbn [f_series histogram_family].
  apply elem_of_app. left. apply list_elem_of_fmap. by exists b.
Qed.

(** Every path under [/metrics] is answered by the registry application and
    every other path goes to the Flask application unchanged, so the Flask
    application is never asked for [/metrics/prometheus]: the view
    registered under that rule cannot be reached, and over HTTP the gauges
    are never refreshed. *)
Theorem metrics_mount_shadows_view (path : list string) (m : Metrics) :
  (∀ p, path = "metrics"%string :: p → wsgi_get path m = ByRegistry (prometheus_app p m)) ∧
  (head path ≠ Some "metrics"%string → wsgi_get path m = ByFlask path) ∧
  wsgi_get path m ≠ ByFlask ["metrics"; "prometheus"]%string.
Proof.
  split; [|split].
  - intros p ->. unfold wsgi_get. by rewrite dispatch_metrics.
  - intros Hh. unfold wsgi_get. by rewrite dispatch_flask.
  - destruct path as [|x p].
    + discriminate.
    + destruct (String.eqb_spec x "metrics") as [->|Hx].
      * unfold wsgi_get. rewrite dispatch_metrics. discriminate.
      * unfold wsgi_get. rewrite dispatch_flask by (cbn; congruence).
        intros [= -> _]. by apply Hx.
Qed.

(** *** The sub-resource views *)

Lemma job_entry_length (i : nat) (jobs : list Json) (w : World) :
  length (job_entry i jobs w).1 = S (length jobs).
Proof.
  unfold job_entry. run_m.
  match goal with |- context [Qltb ?a ?b] => destruct (Qltb a b) end;
    cbn; rewrite length_app; cbn; lia.
Qed.

Lemma stage_entry_length (i : nat) (stages : list Json) (w : World) :
  length (stage_entry i stages w).1 = S (length stages).
Proof. unfold stage_entry. run_m. cbn. rewrite length_app. cbn. lia. Qed.

Lemma executor_entry_length (i : nat) (executors : list Json) (w : World) :
  length (executor_entry i executors w).1 = S (length executors).
Proof. unfold executor_entry. run_m. cbn. rewrite length_app. cbn. lia. Qed.

Lemma jobs_view (i : string) (w : World) :
  ∃ l, (get_application_jobs i w).1 = ok (JArr l) ∧ (3 ≤ length l ≤ 10)%nat.
Proof.
  unfold get_application_jobs. rewrite run_bind.
  pose proof (randint_range 3 10 w ltac:(lia)) as Hn.
  destruct (randint 3 10 w) as [n w1]. cbn [fst] in Hn. rewrite run_bind.
  pose proof (for_each_length job_entry (seq 0 (Z.to_nat n)) job_entry_length [] w1) as Hl.
  destruct (for_each job_entry _ [] w1) as [l w2]. cbn [fst] in Hl.
  exists l. split; [reflexivity|]. rewrite length_seq in Hl. cbn [length] in Hl. lia.
Qed.

Lemma stages_view (i : string) (w : World) :
  ∃ l, (get_application_stages i w).1 = ok (JArr l) ∧ (5 ≤ length l ≤ 15)%nat.
Proof.
  unfold get_application_stages. rewrite run_bind.
  pose proof (randint_range 5 15 w ltac:(lia)) as Hn.
  destruct (randint 5 15 w) as [n w1]. cbn [fst] in Hn. rewrite run_bind.
  pose proof (for_each_length stage_entry (seq 0 (Z.to_nat n)) stage_entry_length [] w1) as Hl.
  destruct (for_each stage_entry _ [] w1) as [l w2]. cbn [fst] in Hl.
  exists l. split; [reflexivity|]. rewrite length_seq in Hl. cbn [length] in Hl. lia.
Qed.

Lemma executors_view (i : string) (w : World) :
  ∃ l, (get_application_executors i w).1 = ok (JArr l) ∧ (3 ≤ length l ≤ 7)%nat.
Proof.
  unfold get_application_executors. rewrite run_bind.
  destruct (driver_entry w) as [d w0]. rewrite run_bind.
  pose proof (randint_range 2 6 w0 ltac:(lia)) as Hn.
  destruct (randint 2 6 w0) as [n w1]. cbn [fst] in Hn. rewrite run_bind.
  pose proof (for_each_length executor_entry (seq 0 (Z.to_nat n))
                executor_entry_length [d] w1) as Hl.
  destruct (for_each executor_entry _ [d] w1) as [l w2]. cbn [fst] in Hl.
  exists l. split; [reflexivity|]. rewrite length_seq in Hl. cbn [length] in Hl. lia.
Qed.

Lemma array_of_ok (l : list Json) : array_of (ok (JArr l)) = l.
Proof. reflexivity. Qed.

Lemma job_entry_object (i : nat) (jobs : list Json) (w : World) :
  ∃ e, (job_entry i jobs w).1 = jobs ++ [e] ∧ is_job_entry i e.
Proof.
  destruct w as [rt rp ct cp]. unfold job_entry. run_m.
  match goal with |- context [Qltb ?a ?b] => destruct (Qltb a b) end;
    cbn [fst]; (eexists; split; [reflexivity|]); unfold is_job_entry.
  - repeat split; entry_field.
  - repeat split; entry_field.
Qed.

Lemma stage_entry_object (i : nat) (stages : list Json) (w : World) :
  ∃ e, (stage_entry i stages w).1 = stages ++ [e] ∧ is_stage_entry i e.
Proof.
  destruct w as [rt rp ct cp]. unfold stage_entry. run_m. cbn [fst].
  eexists; split; [reflexivity|]. unfold is_stage_entry.
  repeat split; entry_field.
Qed.

Lemma executor_entry_object (i : nat) (executors : list Json) (w : World) :
  ∃ e, (executor_entry i executors w).1 = executors ++ [e] ∧ is_executor_entry i e.
Proof.
  destruct w as [rt rp ct cp]. unfold executor_entry. run_m. cbn [fst].
  eexists; split; [reflexivity|]. unfold is_executor_entry.
  repeat split; entry_field.
Qed.

Lemma driver_entry_object (w : World) :
  is_driver_entry (driver_entry w).1 ∧
  rand_tape (driver_entry w).2 = rand_tape w ∧
  rand_pos (driver_entry w).2 = (rand_pos w + 9)%nat.
Proof.
  destruct w as [rt rp ct cp]. unfold driver_entry. run_m.
  split; [|split; [reflexivity|cbn; lia]].
  unfold is_driver_entry. repeat split; entry_field.
Qed.

(** A loop whose body appends one entry of shape [P i] yields entries of
    these shapes, position by position. *)
Lemma for_each_entries (f : nat → list Json → M (list Json)) (P : nat → Json → Prop) :
  (∀ i acc w, ∃ e, (f i acc w).1 = acc ++ [e] ∧ P i e) →
  ∀ (l : list nat) (acc : list Json) (w : World),
    ∃ new, (for_each f l acc w).1 = acc ++ new ∧ Forall2 P l new.
Proof.
  intros Hf. induction l as [|i l IH]; intros acc w.
  - exists []. by rewrite app_nil_r.
  - rewrite for_each_cons. destruct (Hf i acc w) as (e & -> & He).
    destruct (IH (acc ++ [e]) (f i acc w).2) as (new & -> & Hnew).
    exists (e :: new). rewrite <- app_assoc. split; [done|]. by constructor.
Qed.

Lemma randint_draw (a b : Z) (w : World) :
  (randint a b w).1 = a + Z.of_N (rand_tape w (rand_pos w)) `mod` (b - a + 1).
Proof. destruct w as [rt rp ct cp]. reflexivity. Qed.

Lemma jobs_view_entries (i : string) (w : World) :
  ∃ l, (get_application_jobs i w).1 = ok (JArr l) ∧
       length l = Z.to_nat (3 + Z.of_N (rand_tape w (rand_pos w)) `mod` 8) ∧
       Forall2 is_job_entry (seq 0 (length l)) l.
Proof.
  unfold get_application_jobs. rewrite run_bind.
  pose proof (randint_draw 3 10 w) as Hn.
  destruct (randint 3 10 w) as [n w1]. cbn [fst] in Hn. rewrite run_bind.
  destruct (for_each_entries job_entry is_job_entry job_entry_object
              (seq 0 (Z.to_nat n)) [] w1) as (new & Hnew & Hall).
  destruct (for_each job_entry _ [] w1) as [l w2]. cbn [fst app] in Hnew. subst l.
  exists new. split; [reflexivity|].
  assert (Hlen : length new = Z.to_nat n).
  { apply Forall2_length in Hall. by rewrite length_seq in Hall. }
  split; [by rewrite Hlen, Hn|]. by rewrite Hlen.
Qed.

Lemma stages_view_entries (i : string) (w : World) :
  ∃ l, (get_application_stages i w).1 = ok (JArr l) ∧
       length l = Z.to_nat (5 + Z.of_N (rand_tape w (rand_pos w)) `mod` 11) ∧
       Forall2 is_stage_entry (seq 0 (length l)) l.
Proof.
  unfold get_application_stages. rewrite run_bind.
  pose proof (randint_draw 5 15 w) as Hn.
  destruct (randint 5 15 w) as [n w1]. cbn [fst] in Hn. rewrite run_bind.
  destruct (for_each_entries stage_entry is_stage_entry stage_entry_object
              (seq 0 (Z.to_nat n)) [] w1) as (new & Hnew & Hall).
  destruct (for_each stage_entry _ [] w1) as [l w2]. cbn [fst app] in Hnew. subst l.
  exists new. split; [reflexivity|].
  assert (Hlen : length new = Z.to_nat n).
  { apply Forall2_length in Hall. by rewrite length_seq in Hall. }
  split; [by rewrite Hlen, Hn|]. by rewrite Hlen.
Qed.

Lemma executors_view_entries (i : string) (w : World) :
  ∃ d l, (get_application_executors i w).1 = ok (JArr (d :: l)) ∧
         is_driver_entry d ∧
         length l = Z.to_nat (2 + Z.of_N (rand_tape w (rand_pos w + 9)%nat) `mod` 5) ∧
         Forall2 is_executor_entry (seq 0 (length l)) l.
Proof.
  unfold get_application_executors. rewrite run_bind.
  destruct (driver_entry_object w) as (Hd & Ht & Hp).
  destruct (driver_entry w) as [d w0]. cbn [fst snd] in Hd, Ht, Hp. rewrite run_bind.
  pose proof (randint_draw 2 6 w0) as Hn. rewrite Ht, Hp in Hn.
  destruct (randint 2 6 w0) as [n w1]. cbn [fst] in Hn. rewrite run_bind.
  destruct (for_each_entries executor_entry is_executor_entry executor_entry_object
              (seq 0 (Z.to_nat n)) [d] w1) as (new & Hnew & Hall).
  destruct (for_each executor_entry _ [d] w1) as [l w2]. cbn [fst app] in Hnew. subst l.
  exists d, new. split; [reflexivity|]. split; [exact Hd|].
  assert (Hlen : length new = Z.to_nat n).
  { apply Forall2_length in Hall. by rewrite length_seq in Hall. }
  split; [by rewrite Hlen, Hn|]. by rewrite Hlen.
Qed.

(** C10: for every application id, known to the store or not, the three
    sub-resource views answer 200 with a non-empty array drawn from the
    random source: its length is fixed by one draw (3 to 10 jobs, 5 to 15
    stages, the driver plus 2 to 6 executors) and every entry is a job,
    stage or executor dictionary with its keys, its position as id and its
    counters in the ranges of their draws; the answer is the same for any
    two ids under the same random draws, so the id is not consulted; and
    the views leave the store as it was. *)
Theorem subresources_ignore_app_id (i i' : string) (st : Store) (w : World) :
  let jobs := (get_application_jobs i w).1 in
  let stages := (get_application_stages i w).1 in
  let executors := (get_application_executors i w).1 in
  let draw (k : nat) := Z.of_N (rand_tape w (rand_pos w + k)%nat) in
  (status jobs = 200 ∧ body jobs = BJson (JArr (array_of jobs)) ∧
   (3 ≤ length (array_of jobs) ≤ 10)%nat ∧
   length (array_of jobs) = Z.to_nat (3 + draw 0%nat `mod` 8) ∧
   Forall2 is_job_entry (seq 0 (length (array_of jobs))) (array_of jobs)) ∧
  (status stages = 200 ∧ body stages = BJson (JArr (array_of stages)) ∧
   (5 ≤ length (array_of stages) ≤ 15)%nat ∧
   length (array_of stages) = Z.to_nat (5 + draw 0%nat `mod` 11) ∧
   Forall2 is_stage_entry (seq 0 (length (array_of stages))) (array_of stages)) ∧
  (status executors = 200 ∧ body executors = BJson (JArr (array_of executors)) ∧
   (3 ≤ length (array_of executors) ≤ 7)%nat ∧
   length (array_of executors) = S (Z.to_nat (2 + draw 9%nat `mod` 5)) ∧
   ∃ d l, array_of executors = d :: l ∧ is_driver_entry d ∧
          Forall2 is_executor_entry (seq 0 (length l)) l) ∧
  (get_application_jobs i w = get_application_jobs i' w ∧
   get_application_stages i w = get_application_stages i' w ∧
   get_application_executors i w = get_application_executors i' w) ∧
  ((step (JobsFor i) st w).1 = st ∧ (step (StagesFor i) st w).1 = st ∧
   (step (ExecutorsFor i) st w).1 = st).
Proof.
  cbv beta zeta. rewrite Nat.add_0_r.
  destruct (jobs_view_entries i w) as (lj & Hj & Hlj & Hej).
  destruct (stages_view_entries i w) as (ls & Hs & Hls & Hes).
  destruct (executors_view_entries i w) as (d & le & He & Hd & Hle & Hee).
  assert (Hb8 := Z.mod_pos_bound (Z.of_N (rand_tape w (rand_pos w))) 8 ltac:(lia)).
  assert (Hb11 := Z.mod_pos_bound (Z.of_N (rand_tape w (rand_pos w))) 11 ltac:(lia)).
  assert (Hb5 := Z.mod_pos_bound (Z.of_N (rand_tape w (rand_pos w + 9)%nat)) 5 ltac:(lia)).
  split.
  { rewrite Hj, array_of_ok. cbn [status body ok].
    split; [reflexivity|]. split; [reflexivity|]. split; [lia|]. by split. }
  split.
  { rewrite Hs, array_of_ok. cbn [status body ok].
    split; [reflexivity|]. split; [reflexivity|]. split; [lia|]. by split. }
  split.
  { rewrite He, array_of_ok. cbn [status body ok length].
    split; [reflexivity|]. split; [reflexivity|]. split; [lia|].
    split; [by rewrite Hle|]. by exists d, le. }
  split; [split; [reflexivity|split; reflexivity]|].
  unfold step. rewrite !run_bind.
  destruct (get_application_jobs i w), (get_application_stages i w),
    (get_application_executors i w). auto.
Qed.

(** *** The state machine *)

Lemma evolves_refl (st : Store) : all_running (applications st) → evolves st st.
Proof. intros H. split; [done|]. exists []. by rewrite app_nil_r. Qed.

Lemma evolves_trans (st1 st2 st3 : Store) :
  evolves st1 st2 → evolves st2 st3 → evolves st1 st3.
Proof.
  intros (_ & m1 & H1 & F1) (R3 & m2 & H2 & F2). split; [done|].
  exists (m1 ++ m2). rewrite H2, H1, <- app_assoc. split; [done|].
  by apply Forall_app.
Qed.

Lemma evolves_insert (st : Store) (i : string) (a : App) :
  all_running (applications st) → a_state a = RUNNING →
  evolves st (mkStore (<[i := a]> (applications st)) (completed_apps st) (metrics st)).
Proof.
  intros Hst Ha. split; [by apply map_Forall_insert_2|].
  exists []. by rewrite app_nil_r.
Qed.

Lemma evolves_retire (st : Store) (i : string) (a : App) (m : Metrics) :
  all_running (applications st) → terminal a →
  evolves st (mkStore (delete i (applications st)) (completed_apps st ++ [a]) m).
Proof.
  intros Hst Ha. split; [by apply map_Forall_delete|].
  exists [a]. split; [done|]. by apply Forall_singleton.
Qed.

Lemma create_mock_application_state (name : Json) (state : AppState) (w : World) :
  a_state (create_mock_application name state w).1.2 = state.
Proof. by destruct (create_mock_application_spec name state w) as (_ & _ & _ & H & _). Qed.

Lemma create_submission_evolves (parsed : option Json) (st : Store) (w : World) :
  all_running (applications st) → evolves st (create_submission parsed st w).1.2.
Proof.
  intros Hst. destruct (app_resource parsed) as [name|] eqn:Hname.
  - rewrite (create_submission_ok _ name) by done. cbn [fst snd].
    apply evolves_insert; [done|]. apply create_mock_application_state.
  - unfold create_submission. rewrite Hname. by apply evolves_refl.
Qed.

Lemma kill_submission_evolves (i : string) (st : Store) :
  all_running (applications st) → evolves st (kill_submission i st).2.
Proof.
  intros Hst. unfold kill_submission.
  destruct (applications st !! i) as [a|]; cbn [snd]; [|by apply evolves_refl].
  apply evolves_retire; [done|]. by right.
Qed.

Lemma update_one_evolves (item : string * App) (st : Store) (w : World) :
  a_state item.2 = RUNNING → all_running (applications st) →
  evolves st (update_one item st w).1.
Proof.
  destruct item as [i a]. cbn [snd]. intros Ha Hst. unfold update_one. run_m.
  repeat match goal with
         | |- context [if ?b then _ else _] => destruct b
         end; cbn [fst];
    first [apply evolves_retire; [done | by left]
          | apply evolves_insert; [done | exact Ha]].
Qed.

Lemma maybe_new_job_evolves (st : Store) (w : World) :
  all_running (applications st) → evolves st (maybe_new_job st w).1.
Proof.
  intros Hst. unfold maybe_new_job.
  destruct (size (applications st) <? 5)%nat; [|by apply evolves_refl].
  rewrite run_bind. destruct (random w) as [r w1].
  destruct (Qltb r (1 # 10)); [|by apply evolves_refl].
  rewrite run_bind. destruct (choice _ w1) as [name w2]. rewrite run_bind.
  pose proof (create_mock_application_state (JStr name) RUNNING w2) as Hs.
  destruct (create_mock_application (JStr name) RUNNING w2) as [[i a] w3].
  by apply evolves_insert.
Qed.

Lemma update_jobs_evolves (st : Store) (w : World) :
  all_running (applications st) → evolves st (update_jobs st w).1.
Proof.
  intros Hst. unfold update_jobs. rewrite run_bind.
  pose proof (for_each_inv_items (evolves st) (λ item, a_state item.2 = RUNNING)
                update_one (map_to_list (applications st))) as Hloop.
  specialize (Hloop (λ x s w0 Hx Hs,
                       evolves_trans _ _ _ Hs (update_one_evolves x s w0 Hx (proj1 Hs)))).
  assert (Hitems : Forall (λ item : string * App, a_state item.2 = RUNNING)
                          (map_to_list (applications st))).
  { apply Forall_forall. intros [i a] Hin. apply elem_of_map_to_list in Hin.
    exact (Hst i a Hin). }
  specialize (Hloop Hitems st w (evolves_refl st Hst)).
  destruct (for_each update_one _ st w) as [st1 w1]. cbn [fst] in Hloop.
  eapply evolves_trans; [exact Hloop|]. apply maybe_new_job_evolves, Hloop.
Qed.

Lemma step_evolves (op : Op) (st : Store) (w : World) :
  all_running (applications st) → evolves st (step op st w).1.
Proof.
  intros Hst. destruct op; unfold step.
  - rewrite run_bind. pose proof (create_submission_evolves parsed st w Hst) as H.
    by destruct (create_submission parsed st w) as [[out st'] w'].
  - by apply kill_submission_evolves.
  - by apply evolves_refl.
  - by apply evolves_refl.
  - by apply evolves_refl.
  - rewrite run_bind. destruct (get_application_jobs _ w). by apply evolves_refl.
  - rewrite run_bind. destruct (get_application_stages _ w). by apply evolves_refl.
  - rewrite run_bind. destruct (get_application_executors _ w). by apply evolves_refl.
  - split; [exact Hst|]. exists []. cbn. by rewrite app_nil_r.
  - by apply evolves_refl.
  - by apply update_jobs_evolves.
Qed.

Lemma run_evolves (ops : list Op) (st : Store) (w : World) :
  all_running (applications st) → evolves st (run ops st w).1.
Proof.
  revert st w. induction ops as [|op ops IH]; intros st w Hst.
  - by apply evolves_refl.
  - unfold run. rewrite for_each_cons.
    pose proof (step_evolves op st w Hst) as H1.
    eapply evolves_trans; [exact H1|]. apply IH, H1.
Qed.

(** The store built when the module is loaded: its active jobs are RUNNING
    and its history holds FINISHED jobs. *)
Lemma init_store_running (w : World) :
  all_running (applications (init_store w).1) ∧
  Forall terminal (completed_apps (init_store w).1).
Proof.
  unfold init_store. rewrite run_bind.
  assert (H1 : ∀ l s w0, all_running (applications s) ∧ completed_apps s = [] →
    all_running (applications (for_each seed_running l s w0).1) ∧
    completed_apps (for_each seed_running l s w0).1 = []).
  { intros l.
    apply (for_each_inv (λ s, all_running (applications s) ∧ completed_apps s = [])
             seed_running l).
    intros x s w0 [Hr Hc].
    unfold seed_running. rewrite run_bind. destruct (choice _ w0) as [name w1].
    rewrite run_bind.
    pose proof (create_mock_application_state (JStr name) RUNNING w1) as Hs.
    destruct (create_mock_application (JStr name) RUNNING w1) as [[i a] w2].
    cbn. split; [by apply map_Forall_insert_2 | done]. }
  specialize (H1 (seq 0 3) (mkStore ∅ [] empty_metrics) w
                 (conj (map_Forall_empty _) eq_refl)).
  destruct (for_each seed_running _ _ w) as [st1 w1]. cbn [fst] in H1.
  destruct H1 as [Hr Hc].
  apply (for_each_inv (λ s, all_running (applications s) ∧ Forall terminal (completed_apps s))).
  - intros x s w0 [Hr' Hc']. unfold seed_finished. rewrite run_bind.
    destruct (choice _ w0) as [name w2]. rewrite run_bind.
    pose proof (create_mock_application_state (JStr name) FINISHED w2) as Hs.
    destruct (create_mock_application (JStr name) FINISHED w2) as [[i a] w3].
    cbn. split; [done|]. apply Forall_app. split; [done|].
    apply Forall_singleton. by left.
  - split; [done|]. rewrite Hc. constructor.
Qed.

(** C5: in a store whose active jobs are all RUNNING (so every FINISHED or
    KILLED job sits in the history) and after any sequence of API calls and
    updater ticks, the active jobs are again all RUNNING, every job of the
    history is still at its place, unchanged, and what the history has
    gained are jobs in state FINISHED or KILLED. *)
Theorem terminal_jobs_never_change (st : Store) (ops : list Op) (w : World) :
  all_running (applications st) →
  let st' := (run ops st w).1 in
  all_running (applications st') ∧
  (∀ (n : nat) (job : App),
     completed_apps st !! n = Some job → completed_apps st' !! n = Some job) ∧
  ∃ more : list App,
    completed_apps st' = completed_apps st ++ more ∧ Forall terminal more.
Proof.
  intros Hst st'. destruct (run_evolves ops st w Hst) as (Hr & more & Hc & Hm).
  fold st' in Hr, Hc. split; [done|]. split; [|by exists more].
  intros n job Hn. rewrite Hc. by apply lookup_app_l_Some.
Qed.

(** *** Views over the history, the updater and the initial store *)

#[local] Opaque create_mock_application.

Lemma find_id_none (i : string) (l : list App) :
  List.find (λ a, String.eqb (a_id a) i) l = None ↔ Forall (λ a, a_id a ≠ i) l.
Proof.
  induction l as [|a l IH]; cbn.
  - split; [constructor|done].
  - destruct (String.eqb_spec (a_id a) i) as [He|He].
    + split; [done|]. intros H. by apply Forall_cons in H as [? _].
    + rewrite IH. split; [by constructor|].
      intros H. by apply Forall_cons in H as [_ ?].
Qed.

Lemma find_id_app (i : string) (l l' : list App) :
  Forall (λ a, a_id a ≠ i) l →
  List.find (λ a, String.eqb (a_id a) i) (l ++ l') =
  List.find (λ a, String.eqb (a_id a) i) l'.
Proof.
  induction 1 as [|a l Ha _ IH]; cbn; [done|].
  by destruct (String.eqb_spec (a_id a) i).
Qed.

(** The application view answers 404 [{"error": "Application not found"}]
    exactly when the id is neither a key of [applications] nor the id of
    any job in [completed_apps]; the whole history is scanned, not only
    the ten jobs that the listing shows. *)
Theorem get_application_not_found_iff (i : string) (st : Store) :
  get_application i st = not_found (JObj [("error", JStr "Application not found")]) ↔
  applications st !! i = None ∧ Forall (λ a, a_id a ≠ i) (completed_apps st).
Proof.
  unfold get_application. rewrite <- find_id_none.
  destruct (applications st !! i) as [a|].
  - split; [discriminate|]. by intros [? _].
  - destruct (List.find _ (completed_apps st)) as [a|].
    + split; [discriminate|]. by intros [_ ?].
    + done.
Qed.

(** After [kill] on an active job whose id is not yet in the history, the
    application view still answers 200 with that job, now in state KILLED
    and [completed = true], while the status view answers 404. *)
Theorem killed_job_still_served (i : string) (app : App) (st : Store) :
  applications st !! i = Some app → a_id app = i →
  Forall (λ a, a_id a ≠ i) (completed_apps st) →
  let st' := (kill_submission i st).2 in
  get_application i st' = ok (app_json (set_terminal app KILLED)) ∧
  get_submission_status i st' = submission_not_found.
Proof.
  intros Hi Hid Hh st'. subst st'. rewrite (kill_known i app st Hi). cbn [snd].
  unfold get_application, get_submission_status. cbn [applications completed_apps].
  rewrite lookup_delete_eq, find_id_app by done. cbn.
  rewrite Hid, String.eqb_refl. done.
Qed.

(** A second [kill] on the same id always answers 404 and leaves the store
    as the first [kill] left it, whether or not the first one found the
    job. *)
Theorem kill_twice_not_found (i : string) (st : Store) :
  kill_submission i (kill_submission i st).2 =
    (submission_not_found, (kill_submission i st).2).
Proof.
  unfold kill_submission at 2 3.
  destruct (applications st !! i) as [a|] eqn:Hi; cbn [snd].
  - unfold kill_submission. cbn [applications]. by rewrite lookup_delete_eq.
  - unfold kill_submission. by rewrite Hi.
Qed.

(** The listing holds every active application and at most the last ten
    jobs of the history. *)
Theorem listing_length (st : Store) :
  length (array_of (list_applications st)) =
    (size (applications st) + Nat.min 10 (length (completed_apps st)))%nat.
Proof.
  unfold list_applications, array_of, all_apps, last10. cbn -[Nat.min].
  rewrite length_fmap, length_app, length_fmap, length_map_to_list, length_drop. lia.
Qed.

Lemma update_one_shape (i : string) (a : App) (st : Store) (w : World) :
  ∃ a' : App,
    (a_id a' = a_id a ∧ a_state a' = a_state a ∧ a_duration a' = a_duration a ∧
     (within_totals a → within_totals a')) ∧
    ((update_one (i, a) st w).1 =
       mkStore (<[i := a']> (applications st)) (completed_apps st) (metrics st) ∨
     (update_one (i, a) st w).1 =
       mkStore (delete i (applications st))
               (completed_apps st ++ [set_terminal a' FINISHED])
               (observe (a_duration a' # 1000)%Q (metrics st))).
Proof.
  destruct w as [rt rp ct cp]. unfold update_one, within_totals. cbv zeta.
  destruct (Z.ltb_spec (p_completed (a_stages a)) (p_total (a_stages a))) as [H1|H1];
    cbn [a_tasks a_stages p_total p_completed set_stage_completed];
    (destruct (Z.ltb_spec (p_completed (a_tasks a)) (p_total (a_tasks a))) as [H2|H2]);
    run_m;
    match goal with |- context [Qltb ?r ?c] => destruct (Qltb r c) end;
    cbn [fst].
  all: lazymatch goal with
       | |- ∃ _, _ ∧ (mkStore (<[_ := ?x]> _) _ _ = _ ∨ _) =>
           exists x; split; [|left; reflexivity]
       | |- ∃ _, _ ∧ (mkStore _ (_ ++ [set_terminal ?x _]) _ = _ ∨ _) =>
           exists x; split; [|right; reflexivity]
       end.
  all: cbn [a_id a_state a_duration a_tasks a_stages p_total p_completed
         set_stage_completed set_task_completed].
  all: (split; [reflexivity|]; split; [reflexivity|]; split; [reflexivity|]);
    mod_bounds; lia.
Qed.

Lemma maybe_new_job_shape (st : Store) (w : World) :
  (maybe_new_job st w).1 = st ∨
  ((size (applications st) < 5)%nat ∧
   ∃ (i : string) (a : App),
     a_id a = i ∧ a_state a = RUNNING ∧
     (maybe_new_job st w).1 =
       mkStore (<[i := a]> (applications st)) (completed_apps st) (metrics st)).
Proof.
  unfold maybe_new_job.
  destruct (Nat.ltb_spec (size (applications st)) 5) as [Hlt|Hge]; [|by left].
  rewrite run_bind. destruct (random w) as [r w1].
  destruct (Qltb r (1 # 10)); [|by left].
  rewrite run_bind. destruct (choice _ w1) as [name w2]. rewrite run_bind.
  pose proof (create_mock_application_spec (JStr name) RUNNING w2) as Hs.
  cbv zeta in Hs. destruct Hs as (_ & Hid & _ & Hstate & _).
  destruct (create_mock_application (JStr name) RUNNING w2) as [[i a] w3].
  right. split; [exact Hlt|]. exists i, a. cbn [fst snd] in *. done.
Qed.

Lemma within_totals_terminal (a : App) (s : AppState) :
  within_totals (set_terminal a s) ↔ within_totals a.
Proof. done. Qed.

(** The progress loop of the updater keeps completed counts within their
    totals: if every active job and every job of the history starts within
    its totals, so does every job after the loop, whichever jobs it
    advances or finishes. *)
Theorem progress_loop_within_totals (st : Store) (w : World) :
  map_Forall (λ _ a, within_totals a) (applications st) →
  Forall within_totals (completed_apps st) →
  let st' := (for_each update_one (map_to_list (applications st)) st w).1 in
  map_Forall (λ _ a, within_totals a) (applications st') ∧
  Forall within_totals (completed_apps st').
Proof.
  intros Ha Hh.
  apply (for_each_inv_items
           (λ s, map_Forall (λ _ a, within_totals a) (applications s) ∧
                 Forall within_totals (completed_apps s))
           (λ item, within_totals item.2) update_one).
  - intros [i a] s w0 Hw [Hs1 Hs2]. cbn [snd] in Hw.
    destruct (update_one_shape i a s w0) as (a' & (_ & _ & _ & Hin) & [-> | ->]);
      cbn [applications completed_apps].
    + split; [|exact Hs2]. apply map_Forall_insert_2; [by apply Hin|exact Hs1].
    + split; [by apply map_Forall_delete|].
      apply Forall_app. split; [exact Hs2|].
      apply Forall_singleton, within_totals_terminal, Hin, Hw.
  - apply Forall_forall. intros [i a] Hin. apply elem_of_map_to_list in Hin.
    exact (Ha i a Hin).
  - by split.
Qed.

Lemma progress_loop_dom (st : Store) (w : World) :
  dom (applications (for_each update_one (map_to_list (applications st)) st w).1)
    ⊆ dom (applications st).
Proof.
  apply (for_each_inv_items
           (λ s, dom (applications s) ⊆ dom (applications st))
           (λ item, item.1 ∈ dom (applications st)) update_one).
  - intros [i a] s w0 Hi Hs. cbn [fst] in Hi.
    destruct (update_one_shape i a s w0) as (a' & _ & [-> | ->]);
      cbn [applications].
    + rewrite dom_insert_L. apply union_least; [|exact Hs].
      by apply singleton_subseteq_l.
    + rewrite dom_delete_L. by apply subseteq_difference_l.
  - apply Forall_forall. intros [i a] Hin. apply elem_of_map_to_list in Hin.
    cbn [fst]. by apply elem_of_dom_2 in Hin.
  - done.
Qed.

(** One pass of the updater never raises the number of active jobs above
    the larger of five and what it was, and it adds at most one id that was
    not active before. *)
Theorem tick_active_bound (st : Store) (w : World) :
  let st' := (update_jobs st w).1 in
  (size (applications st') ≤ Nat.max (size (applications st)) 5)%nat ∧
  ∃ fresh : list string,
    (length fresh ≤ 1)%nat ∧
    dom (applications st') ⊆ dom (applications st) ∪ list_to_set fresh.
Proof.
  unfold update_jobs. cbv zeta. rewrite run_bind.
  pose proof (progress_loop_dom st w) as Hdom.
  destruct (for_each update_one _ st w) as [st1 w1]. cbn [fst] in Hdom.
  assert (Hsize : (size (applications st1) ≤ size (applications st))%nat).
  { rewrite <- !size_dom. by apply subseteq_size. }
  cbv beta iota.
  destruct (maybe_new_job_shape st1 w1) as [-> | (Hlt & i & a & _ & _ & ->)].
  - split; [lia|]. exists []. split; [cbn; lia|]. set_solver.
  - cbn [applications]. split.
    + rewrite map_size_insert. destruct (applications st1 !! i); unfold id; lia.
    + exists [i]. split; [cbn; lia|]. rewrite dom_insert_L. cbn [list_to_set].
      rewrite (comm_L (∪) (dom (applications st))), (right_id_L ∅ (∪)).
      by apply union_mono_l.
Qed.

Lemma progress_loop_history (st : Store) (w : World) :
  let st1 := (for_each update_one (map_to_list (applications st)) st w).1 in
  ∃ more : list App,
    completed_apps st1 = completed_apps st ++ more ∧
    Forall finished more ∧
    spark_job_duration (metrics st1) =
      spark_job_duration (metrics st) ++ ((λ a, (a_duration a # 1000)%Q) <$> more) ∧
    gauges (metrics st1) = gauges (metrics st).
Proof.
  apply (for_each_inv
    (λ s, ∃ more : list App,
       completed_apps s = completed_apps st ++ more ∧
       Forall finished more ∧
       spark_job_duration (metrics s) =
         spark_job_duration (metrics st) ++ ((λ a, (a_duration a # 1000)%Q) <$> more) ∧
       gauges (metrics s) = gauges (metrics st))
    update_one (map_to_list (applications st))).
  - intros [i a] s w0 (more & Hc & Hf & Hd & Hg).
    destruct (update_one_shape i a s w0) as (a' & _ & [-> | ->]);
      cbn [completed_apps metrics].
    + by exists more.
    + exists (more ++ [set_terminal a' FINISHED]).
      rewrite Hc, <- app_assoc. split; [done|].
      split; [apply Forall_app; split; [done|]; by apply Forall_singleton|].
      split; [|exact Hg].
      cbn [observe spark_job_duration]. rewrite Hd, fmap_app, <- app_assoc. done.
  - exists []. rewrite !app_nil_r. repeat split; constructor.
Qed.


(** What each operation adds to the history: [kill] adds the killed job
    (in state KILLED) when the id is active and nothing otherwise, a pass of
    the updater adds only jobs in state FINISHED, and every other endpoint
    adds nothing. *)
Theorem history_grows_by_kill_or_tick (op : Op) (st : Store) (w : World) :
  let st' := (step op st w).1 in
  match op with
  | Kill i =>
      completed_apps st' =
        completed_apps st ++
        match applications st !! i with
        | Some a => [set_terminal a KILLED]
        | None => []
        end
  | Tick =>
      ∃ more, completed_apps st' = completed_apps st ++ more ∧
              Forall (λ a, a_state a = FINISHED) more
  | _ => completed_apps st' = completed_apps st
  end.
Proof.
  destruct op; cbv zeta; unfold step.
  - rewrite run_bind. unfold create_submission.
    destruct (app_resource parsed); [rewrite run_bind|reflexivity].
    by destruct (create_mock_application j RUNNING w) as [[i a] w1].
  - unfold kill_submission. cbv [mret M_ret]. cbn [fst].
    destruct (applications st !! submission_id); cbn [snd completed_apps];
      [done|by rewrite app_nil_r].
  - done.
  - done.
  - done.
  - rewrite run_bind. by destruct (get_application_jobs _ w).
  - rewrite run_bind. by destruct (get_application_stages _ w).
  - rewrite run_bind. by destruct (get_application_executors _ w).
  - done.
  - done.
  - unfold update_jobs. rewrite run_bind.
    pose proof (progress_loop_history st w) as Hloop. cbv zeta in Hloop.
    destruct (for_each update_one _ st w) as [st1 w1]. cbn [fst] in Hloop.
    cbv beta iota. destruct Hloop as (more & Hc & Hf & _).
    exists more. split.
    + by destruct (maybe_new_job_shape st1 w1) as [-> | (_ & i & a & _ & _ & ->)].
    + eapply Forall_impl; [exact Hf|]. by intros a [? _].
Qed.

(** The five gauges change only in the [/metrics/prometheus] view: every
    other endpoint, and the updater, leave them at the values of the last
    refresh. *)
Theorem gauges_refreshed_only_by_prometheus_view (op : Op) (st : Store) (w : World) :
  op ≠ PromMetrics →
  gauges (metrics (step op st w).1) = gauges (metrics st).
Proof.
  intros Hop. destruct op; unfold step.
  - rewrite run_bind. unfold create_submission.
    destruct (app_resource parsed); [rewrite run_bind|reflexivity].
    by destruct (create_mock_application j RUNNING w) as [[i a] w1].
  - unfold kill_submission. cbv [mret M_ret]. cbn [fst].
    by destruct (applications st !! submission_id).
  - done.
  - done.
  - done.
  - rewrite run_bind. by destruct (get_application_jobs _ w).
  - rewrite run_bind. by destruct (get_application_stages _ w).
  - rewrite run_bind. by destruct (get_application_executors _ w).
  - done.
  - done.
  - unfold update_jobs. rewrite run_bind.
    pose proof (progress_loop_history st w) as Hloop. cbv zeta in Hloop.
    destruct (for_each update_one _ st w) as [st1 w1]. cbn [fst] in Hloop.
    cbv beta iota. destruct Hloop as (more & _ & _ & _ & Hg).
    by destruct (maybe_new_job_shape st1 w1) as [-> | (_ & i & a & _ & _ & ->)].
Qed.

(** *** Keys and ids *)

Lemma keyed_insert (apps : gmap string App) (i : string) (a : App) :
  keyed apps → a_id a = i → keyed (<[i := a]> apps).
Proof. intros Hk Ha. by apply map_Forall_insert_2. Qed.

Lemma update_one_keyed (item : string * App) (st : Store) (w : World) :
  a_id item.2 = item.1 → keyed (applications st) →
  keyed (applications (update_one item st w).1).
Proof.
  destruct item as [i a]. cbn [fst snd]. intros Ha Hk.
  destruct (update_one_shape i a st w) as (a' & (Hid & _) & [-> | ->]);
    cbn [applications].
  - apply keyed_insert; [done|congruence].
  - by apply map_Forall_delete.
Qed.

Lemma step_keyed (op : Op) (st : Store) (w : World) :
  keyed (applications st) → keyed (applications (step op st w).1).
Proof.
  intros Hk. destruct op; unfold step.
  - rewrite run_bind. unfold create_submission.
    destruct (app_resource parsed); [rewrite run_bind|exact Hk].
    pose proof (create_mock_application_spec j RUNNING w) as Hs. cbv zeta in Hs.
    destruct Hs as (_ & Hid & _).
    destruct (create_mock_application j RUNNING w) as [[i a] w1].
    by apply keyed_insert.
  - unfold kill_submission. cbv [mret M_ret]. cbn [fst].
    destruct (applications st !! submission_id); [|exact Hk].
    by apply map_Forall_delete.
  - done.
  - done.
  - done.
  - rewrite run_bind. by destruct (get_application_jobs _ w).
  - rewrite run_bind. by destruct (get_application_stages _ w).
  - rewrite run_bind. by destruct (get_application_executors _ w).
  - done.
  - done.
  - unfold update_jobs. rewrite run_bind.
    pose proof (for_each_inv_items (λ s, keyed (applications s))
                  (λ item : string * App, a_id item.2 = item.1)
                  update_one (map_to_list (applications st))) as Hloop.
    specialize (Hloop (λ x s w0 Hx Hs, update_one_keyed x s w0 Hx Hs)).
    lapply Hloop; [clear Hloop; intros Hloop|].
    + specialize (Hloop st w Hk).
      destruct (for_each update_one _ st w) as [st1 w1]. cbn [fst] in Hloop.
      cbv beta iota.
      destruct (maybe_new_job_shape st1 w1) as [-> | (_ & i & a & Hid & _ & ->)];
        [exact Hloop|by apply keyed_insert].
    + apply Forall_forall. intros [i a] Hin. apply elem_of_map_to_list in Hin.
      exact (Hk i a Hin).
Qed.

Lemma run_keyed (ops : list Op) (st : Store) (w : World) :
  keyed (applications st) → keyed (applications (run ops st w).1).
Proof.
  unfold run.
  apply (for_each_inv (λ s, keyed (applications s)) step ops).
  intros op s w0. apply step_keyed.
Qed.

(** *** The store at module load *)

Lemma seed_running_shape (x : nat) (s : Store) (w : World) :
  ∃ (i : string) (a : App),
    a_id a = i ∧ a_state a = RUNNING ∧
    (seed_running x s w).1 =
      mkStore (<[i := a]> (applications s)) (completed_apps s) (metrics s).
Proof.
  unfold seed_running. rewrite run_bind. destruct (choice _ w) as [name w1].
  rewrite run_bind.
  pose proof (create_mock_application_spec (JStr name) RUNNING w1) as Hs.
  cbv zeta in Hs. destruct Hs as (_ & Hid & _ & Hstate & _).
  destruct (create_mock_application (JStr name) RUNNING w1) as [[i a] w2].
  exists i, a. cbn [fst snd] in *. done.
Qed.

Lemma seed_finished_shape (x : nat) (s : Store) (w : World) :
  ∃ a : App,
    finished a ∧
    (seed_finished x s w).1 =
      mkStore (applications s) (completed_apps s ++ [a]) (metrics s).
Proof.
  unfold seed_finished. rewrite run_bind. destruct (choice _ w) as [name w1].
  rewrite run_bind.
  pose proof (create_mock_application_spec (JStr name) FINISHED w1) as Hs.
  cbv zeta in Hs. destruct Hs as (_ & _ & _ & Hstate & Hc & _).
  destruct (create_mock_application (JStr name) FINISHED w1) as [[i a] w2].
  exists a. cbn [fst snd] in *. done.
Qed.

Lemma size_insert_bounds (m : gmap string App) (i : string) (a : App) :
  (size m ≤ size (<[i := a]> m) ≤ S (size m) ∧ 1 ≤ size (<[i := a]> m))%nat.
Proof.
  assert (size (<[i := a]> m) ≠ 0%nat).
  { apply (map_size_ne_0_lookup_2 _ i). rewrite lookup_insert_eq. by eexists. }
  revert H. rewrite map_size_insert. destruct (m !! i); unfold id; lia.
Qed.

Lemma seed_running_loop (l : list nat) (s : Store) (w : World) :
  let s' := (for_each seed_running l s w).1 in
  completed_apps s' = completed_apps s ∧ metrics s' = metrics s ∧
  (size (applications s) ≤ size (applications s') ≤ size (applications s) + length l)%nat ∧
  (l ≠ [] → 1 ≤ size (applications s'))%nat ∧
  (keyed (applications s) → keyed (applications s')).
Proof.
  revert s w. induction l as [|x l IH]; intros s w; cbv zeta.
  - cbn. repeat split; (done || lia).
  - rewrite for_each_cons.
    destruct (seed_running_shape x s w) as (i & a & Hid & _ & Hs).
    rewrite Hs.
    specialize (IH (mkStore (<[i := a]> (applications s)) (completed_apps s) (metrics s))
                   (seed_running x s w).2). cbv zeta in IH.
    destruct IH as (Hc & Hm & Hsz & _ & Hk).
    cbn [applications completed_apps metrics] in Hc, Hm, Hsz, Hk.
    pose proof (size_insert_bounds (applications s) i a) as Hi.
    split; [exact Hc|]. split; [exact Hm|].
    split; [|split].
    + cbn [length]. lia.
    + intros _. lia.
    + intros Hks. by apply Hk, keyed_insert.
Qed.

Lemma seed_finished_loop (l : list nat) (s : Store) (w : World) :
  let s' := (for_each seed_finished l s w).1 in
  applications s' = applications s ∧ metrics s' = metrics s ∧
  ∃ more, completed_apps s' = completed_apps s ++ more ∧
          length more = length l ∧ Forall finished more.
Proof.
  revert s w. induction l as [|x l IH]; intros s w; cbv zeta.
  - cbn. repeat split. exists []. by rewrite app_nil_r.
  - rewrite for_each_cons.
    destruct (seed_finished_shape x s w) as (a & Ha & Hs).
    rewrite Hs.
    specialize (IH (mkStore (applications s) (completed_apps s ++ [a]) (metrics s))
                   (seed_finished x s w).2). cbv zeta in IH.
    destruct IH as (Hap & Hm & more & Hc & Hlen & Hf).
    cbn [applications completed_apps metrics] in Hap, Hm, Hc.
    split; [exact Hap|]. split; [exact Hm|].
    exists (a :: more). rewrite Hc, <- app_assoc. split; [done|].
    split; [cbn; by rewrite Hlen|by constructor].
Qed.

Lemma init_store_facts (w : World) :
  let st := (init_store w).1 in
  (1 ≤ size (applications st) ≤ 3)%nat ∧ keyed (applications st) ∧
  length (completed_apps st) = 5%nat ∧ Forall finished (completed_apps st) ∧
  metrics st = empty_metrics.
Proof.
  unfold init_store. cbv zeta. rewrite run_bind.
  pose proof (seed_running_loop (seq 0 3) (mkStore ∅ [] empty_metrics) w) as H1.
  cbv zeta in H1.
  destruct (for_each seed_running (seq 0 3) (mkStore ∅ [] empty_metrics) w) as [st1 w1].
  cbn [fst applications completed_apps metrics] in H1.
  destruct H1 as (Hc1 & Hm1 & Hsz & Hne & Hk).
  pose proof (seed_finished_loop (seq 0 5) st1 w1) as H2. cbv zeta in H2.
  destruct (for_each seed_finished (seq 0 5) st1 w1) as [st2 w2].
  cbn [fst] in *. destruct H2 as (Hap & Hm & more & Hc & Hlen & Hf).
  rewrite Hap, Hm, Hm1, Hc, Hc1. cbn [app].
  rewrite map_size_empty in Hsz. cbn in Hsz.
  split; [split; [by apply Hne|lia]|].
  split; [apply Hk, map_Forall_empty|]. by rewrite Hlen.
Qed.

(** The store after the module is loaded: between one and three active
    jobs (three seeds, which may share an id), all RUNNING; a history of
    exactly five jobs, all FINISHED with [completed = true]; and untouched
    collectors. *)
Theorem init_store_shape (w : World) :
  let st := (init_store w).1 in
  (1 ≤ size (applications st) ≤ 3)%nat ∧
  all_running (applications st) ∧
  length (completed_apps st) = 5%nat ∧ Forall finished (completed_apps st) ∧
  metrics st = empty_metrics.
Proof.
  cbv zeta. destruct (init_store_facts w) as (Hsz & _ & Hlen & Hf & Hm).
  destruct (init_store_running w) as [Hr _].
  exact (conj Hsz (conj Hr (conj Hlen (conj Hf Hm)))).
Qed.

(** In every store reached from the module's initial store by API calls
    and updater passes, active jobs are RUNNING and stored under their own
    id, the history holds only FINISHED or KILLED jobs, and the five seeded
    jobs are still its first five entries. *)
Theorem reachable_store_invariants (w : World) (ops : list Op) :
  let '(st0, w0) := init_store w in
  let st := (run ops st0 w0).1 in
  all_running (applications st) ∧ keyed (applications st) ∧
  Forall terminal (completed_apps st) ∧
  take 5 (completed_apps st) = completed_apps st0.
Proof.
  pose proof (init_store_facts w) as H0. cbv zeta in H0.
  destruct H0 as (_ & Hk & Hlen & Hf & _).
  destruct (init_store_running w) as [Hr _].
  destruct (init_store w) as [st0 w0]. cbn [fst] in *. cbv zeta.
  destruct (run_evolves ops st0 w0 Hr) as (Hr' & more & Hc & Hm).
  split; [exact Hr'|]. split; [by apply run_keyed|].
  rewrite Hc. split.
  - apply Forall_app. split; [|exact Hm].
    eapply Forall_impl; [exact Hf|]. intros a [Ha _]. by left.
  - rewrite take_app_length'; done.
Qed.

(** A submission whose body is absent, falsy, or an object without the key
    [appResource] stores a RUNNING job named ["Submitted Job"] under the id
    it returns, and touches neither the history nor the collectors. *)
Theorem submitted_job_default_name (parsed : option Json) (st : Store) (w : World) :
  (parsed = None ∨ (∃ j, parsed = Some j ∧ truthy j = false) ∨
   ∃ fields, parsed = Some (JObj fields) ∧ "appResource" ∉ fields.*1) →
  let r := create_submission parsed st w in
  ∃ (i : string) (a : App),
    r.1.1 = created i ∧
    r.1.2 = mkStore (<[i := a]> (applications st)) (completed_apps st) (metrics st) ∧
    a_id a = i ∧ a_name a = JStr "Submitted Job" ∧ a_state a = RUNNING ∧
    a_completed a = false.
Proof.
  intros Hp.
  assert (Hname : app_resource parsed = Some (JStr "Submitted Job")).
  { destruct Hp as [-> | [(j & -> & Hj) | (fields & -> & Hf)]]; cbn.
    - done.
    - by rewrite Hj.
    - destruct fields as [|[k v] fields]; [done|]. f_equal.
      induction ((k, v) :: fields) as [|[k' v'] l IH]; [done|].
      cbn in Hf |- *. apply not_elem_of_cons in Hf as [Hk Hl].
      destruct (String.eqb_spec k' "appResource") as [->|_]; [done|].
      by apply IH. }
  cbv zeta. rewrite (create_submission_ok _ _ st w Hname). cbn [fst snd].
  pose proof (create_mock_application_spec (JStr "Submitted Job") RUNNING w) as Hs.
  cbv zeta in Hs. destruct Hs as (_ & Hid & Hn & Hstate & Hc & _).
  destruct (create_mock_application (JStr "Submitted Job") RUNNING w) as [[i a] w1].
  exists i, a. cbn [fst snd] in *. done.
Qed.

(** *** Numbering of the sub-resource entries *)

Lemma job_entry_shape (i : nat) (jobs : list Json) (w : World) :
  ∃ e, (job_entry i jobs w).1 = jobs ++ [e] ∧
       field "jobId" e = JInt (Z.of_nat i) ∧
       field "name" e = JStr ("Job " +:+ pretty i).
Proof.
  unfold job_entry. run_m.
  match goal with |- context [Qltb ?a ?b] => destruct (Qltb a b) end;
    cbn [fst]; eexists; (split; [reflexivity|]); split; reflexivity.
Qed.

Lemma stage_entry_shape (i : nat) (stages : list Json) (w : World) :
  ∃ e, (stage_entry i stages w).1 = stages ++ [e] ∧
       field "stageId" e = JInt (Z.of_nat i) ∧
       field "name" e = JStr ("Stage " +:+ pretty i).
Proof.
  unfold stage_entry. run_m. cbn [fst].
  eexists; (split; [reflexivity|]); split; reflexivity.
Qed.

Lemma executor_entry_shape (i : nat) (executors : list Json) (w : World) :
  ∃ e, (executor_entry i executors w).1 = executors ++ [e] ∧
       field "id" e = JStr (pretty i) ∧ field "totalCores" e = JInt 4.
Proof.
  unfold executor_entry. run_m. cbn [fst].
  eexists; (split; [reflexivity|]); split; reflexivity.
Qed.

(** A loop whose body appends one entry tagged with its index yields the
    tags of the indices in order. *)
Lemma for_each_tags (f : nat → list Json → M (list Json)) (tag : Json → Json)
    (name : nat → Json) :
  (∀ i acc w, ∃ e, (f i acc w).1 = acc ++ [e] ∧ tag e = name i) →
  ∀ (l : list nat) (acc : list Json) (w : World),
    ∃ new, (for_each f l acc w).1 = acc ++ new ∧ tag <$> new = name <$> l.
Proof.
  intros Hf. induction l as [|i l IH]; intros acc w.
  - exists []. by rewrite app_nil_r.
  - rewrite for_each_cons. destruct (Hf i acc w) as (e & -> & He).
    destruct (IH (acc ++ [e]) (f i acc w).2) as (new & -> & Hnew).
    exists (e :: new). rewrite <- app_assoc. split; [done|].
    cbn. by rewrite He, Hnew.
Qed.

(** The entries of the sub-resource views are numbered by position: jobs
    carry [jobId] 0, 1, ..., stages carry [stageId] 0, 1, ..., and the
    executors are the driver followed by executors "0", "1", .... *)
Theorem subresource_entries_numbered (i : string) (w : World) :
  let jobs := array_of (get_application_jobs i w).1 in
  let stages := array_of (get_application_stages i w).1 in
  let executors := array_of (get_application_executors i w).1 in
  field "jobId" <$> jobs = (λ k, JInt (Z.of_nat k)) <$> seq 0 (length jobs) ∧
  field "stageId" <$> stages = (λ k, JInt (Z.of_nat k)) <$> seq 0 (length stages) ∧
  field "id" <$> executors =
    JStr "driver" :: ((λ k, JStr (pretty k)) <$> seq 0 (length executors - 1)).
Proof.
  cbv zeta. split; [|split].
  - unfold get_application_jobs. rewrite run_bind.
    destruct (randint 3 10 w) as [n w1]. rewrite run_bind.
    destruct (for_each_tags job_entry (field "jobId") (λ k, JInt (Z.of_nat k)))
      with (l := seq 0 (Z.to_nat n)) (acc := @nil Json) (w := w1)
      as (new & Hnew & Htags).
    { intros k acc w0. destruct (job_entry_shape k acc w0) as (e & He & Hid & _).
      by exists e. }
    destruct (for_each job_entry _ [] w1) as [l w2]. cbn [fst] in Hnew. subst l.
    cbv [mret M_ret]. cbn [fst app]. rewrite !array_of_ok.
    rewrite Htags. f_equal. f_equal.
    apply (f_equal length) in Htags. rewrite !length_fmap, length_seq in Htags. done.
  - unfold get_application_stages. rewrite run_bind.
    destruct (randint 5 15 w) as [n w1]. rewrite run_bind.
    destruct (for_each_tags stage_entry (field "stageId") (λ k, JInt (Z.of_nat k)))
      with (l := seq 0 (Z.to_nat n)) (acc := @nil Json) (w := w1)
      as (new & Hnew & Htags).
    { intros k acc w0. destruct (stage_entry_shape k acc w0) as (e & He & Hid & _).
      by exists e. }
    destruct (for_each stage_entry _ [] w1) as [l w2]. cbn [fst] in Hnew. subst l.
    cbv [mret M_ret]. cbn [fst app]. rewrite !array_of_ok.
    rewrite Htags. f_equal. f_equal.
    apply (f_equal length) in Htags. rewrite !length_fmap, length_seq in Htags. done.
  - unfold get_application_executors. rewrite run_bind.
    assert (Hd : field "id" (driver_entry w).1 = JStr "driver").
    { unfold driver_entry. run_m. reflexivity. }
    destruct (driver_entry w) as [d w0]. cbn [fst] in Hd. rewrite run_bind.
    destruct (randint 2 6 w0) as [n w1]. rewrite run_bind.
    destruct (for_each_tags executor_entry (field "id") (λ k, JStr (pretty k)))
      with (l := seq 0 (Z.to_nat n)) (acc := [d]) (w := w1)
      as (new & Hnew & Htags).
    { intros k acc w2. destruct (executor_entry_shape k acc w2) as (e & He & Hid & _).
      by exists e. }
    destruct (for_each executor_entry _ [d] w1) as [l w2]. cbn [fst] in Hnew. subst l.
    cbv [mret M_ret]. cbn [fst app]. rewrite !array_of_ok.
    rewrite fmap_cons, Hd. f_equal. cbn [length].
    rewrite Htags. f_equal. f_equal.
    apply (f_equal length) in Htags. rewrite !length_fmap, length_seq in Htags. lia.
Qed.

(** *** Durations and attempt records *)

#[local] Transparent create_mock_application.

Lemma create_running_attempt (name : Json) (w : World) :
  open_attempt (create_mock_application name RUNNING w).1.2.
Proof.
  unfold create_mock_application, generate_app_id, elapsed_ms, is_running. run_m.
  eexists. split; [reflexivity|]. split; reflexivity.
Qed.

Lemma create_duration (name : Json) (state : AppState) (w : World) :
  let t0 := clock_tape w (S (clock_pos w)) in
  let t1 := clock_tape w (S (S (clock_pos w))) in
  ∃ back : Z,
    1 ≤ back ≤ 60 ∧
    a_duration (create_mock_application name state w).1.2 =
      Z.quot (t1 - (t0 - back * 60 * 1000000)) 1000.
Proof.
  destruct w as [rt rp ct cp].
  destruct state;
    unfold create_mock_application, generate_app_id, elapsed_ms, is_running; run_m;
    cbn [fst snd a_duration];
    (eexists; split; [|reflexivity]); mod_bounds; lia.
Qed.

#[local] Opaque create_mock_application.

(** A job's [duration] is fixed when the job is created, as the time since
    a start set one to sixty minutes in the past: if the clock does not run
    backwards between the two reads, the duration is at least 60000 ms, so
    what the histogram later observes for the job is at least 60 seconds. *)
Theorem created_duration_at_least_a_minute (name : Json) (state : AppState) (w : World) :
  clock_tape w (S (clock_pos w)) ≤ clock_tape w (S (S (clock_pos w))) →
  60000 ≤ a_duration (create_mock_application name state w).1.2.
Proof.
  intros Hclock. destruct (create_duration name state w) as (back & Hb & ->).
  apply Z.quot_le_lower_bound; lia.
Qed.

Lemma update_one_attempts (i : string) (a : App) (st : Store) (w : World) :
  ∃ a' : App,
    a_attempts a' = a_attempts a ∧
    ((update_one (i, a) st w).1 =
       mkStore (<[i := a']> (applications st)) (completed_apps st) (metrics st) ∨
     (update_one (i, a) st w).1 =
       mkStore (delete i (applications st))
               (completed_apps st ++ [set_terminal a' FINISHED])
               (observe (a_duration a' # 1000)%Q (metrics st))).
Proof.
  destruct w as [rt rp ct cp]. unfold update_one. cbv zeta.
  destruct (p_completed (a_stages a) <? p_total (a_stages a));
    cbn [a_tasks a_stages p_total p_completed set_stage_completed];
    (destruct (p_completed (a_tasks a) <? p_total (a_tasks a)));
    run_m;
    match goal with |- context [Qltb ?r ?c] => destruct (Qltb r c) end;
    cbn [fst].
  all: lazymatch goal with
       | |- ∃ _, _ ∧ (mkStore (<[_ := ?x]> _) _ _ = _ ∨ _) =>
           exists x; split; [reflexivity|left; reflexivity]
       | |- ∃ _, _ ∧ (mkStore _ (_ ++ [set_terminal ?x _]) _ = _ ∨ _) =>
           exists x; split; [reflexivity|right; reflexivity]
       end.
Qed.

Lemma attempts_insert (n : nat) (st : Store) (i : string) (a : App) :
  attempts_open_from n st → open_attempt a →
  attempts_open_from n
    (mkStore (<[i := a]> (applications st)) (completed_apps st) (metrics st)).
Proof. intros [H1 H2] Ha. split; [by apply map_Forall_insert_2|exact H2]. Qed.

Lemma attempts_retire (n : nat) (st : Store) (i : string) (a : App)
    (s : AppState) (m : Metrics) :
  attempts_open_from n st → open_attempt a →
  attempts_open_from n
    (mkStore (delete i (applications st)) (completed_apps st ++ [set_terminal a s]) m).
Proof.
  intros [H1 H2] Ha. split; [by apply map_Forall_delete|].
  cbn [completed_apps]. rewrite drop_app. apply Forall_app. split; [exact H2|].
  apply Forall_drop. by apply Forall_singleton.
Qed.

Lemma step_attempts (n : nat) (op : Op) (st : Store) (w : World) :
  attempts_open_from n st → attempts_open_from n (step op st w).1.
Proof.
  intros Hst. destruct op; unfold step.
  - rewrite run_bind. unfold create_submission.
    destruct (app_resource parsed); [rewrite run_bind|exact Hst].
    pose proof (create_running_attempt j w) as Ha.
    destruct (create_mock_application j RUNNING w) as [[i a] w1].
    by apply attempts_insert.
  - unfold kill_submission. cbv [mret M_ret]. cbn [fst].
    destruct (applications st !! submission_id) as [a|] eqn:Hi; [|exact Hst].
    apply attempts_retire; [exact Hst|]. exact (proj1 Hst _ _ Hi).
  - exact Hst.
  - exact Hst.
  - exact Hst.
  - rewrite run_bind. by destruct (get_application_jobs _ w).
  - rewrite run_bind. by destruct (get_application_stages _ w).
  - rewrite run_bind. by destruct (get_application_executors _ w).
  - exact Hst.
  - exact Hst.
  - unfold update_jobs. rewrite run_bind.
    pose proof (for_each_inv_items (attempts_open_from n)
                  (λ item : string * App, open_attempt item.2)
                  update_one (map_to_list (applications st))) as Hloop.
    lapply Hloop; [clear Hloop; intros Hloop|].
    + lapply Hloop; [clear Hloop; intros Hloop|].
      * specialize (Hloop st w Hst).
        destruct (for_each update_one _ st w) as [st1 w1]. cbn [fst] in Hloop.
        cbv beta iota. unfold maybe_new_job.
        destruct (size (applications st1) <? 5)%nat; [|exact Hloop].
        rewrite run_bind. destruct (random w1) as [r w2].
        destruct (Qltb r (1 # 10)); [|exact Hloop].
        rewrite run_bind. destruct (choice _ w2) as [name w3]. rewrite run_bind.
        pose proof (create_running_attempt (JStr name) w3) as Ha.
        destruct (create_mock_application (JStr name) RUNNING w3) as [[i a] w4].
        by apply attempts_insert.
      * apply Forall_forall. intros [i a] Hin. apply elem_of_map_to_list in Hin.
        exact (proj1 Hst i a Hin).
    + intros [i a] s w0 Ha Hs. cbn [snd] in Ha.
      destruct (update_one_attempts i a s w0) as (a' & Hat & [-> | ->]).
      * apply attempts_insert; [exact Hs|]. unfold open_attempt. by rewrite Hat.
      * apply attempts_retire; [exact Hs|]. unfold open_attempt. by rewrite Hat.
Qed.

Lemma run_attempts (n : nat) (ops : list Op) (st : Store) (w : World) :
  attempts_open_from n st → attempts_open_from n (run ops st w).1.
Proof.
  unfold run. apply (for_each_inv (attempts_open_from n) step ops).
  intros op s w1. apply step_attempts.
Qed.

(** The attempt record of a job is never closed: in every store reached
    from the module's initial store, each active job and each job that
    entered the history by [kill] or by the updater still has its single
    attempt with no end time and [completed = false], although the job
    itself says [completed = true] once it is in the history. *)
Theorem attempts_never_closed (w : World) (ops : list Op) :
  let '(st0, w0) := init_store w in
  let st := (run ops st0 w0).1 in
  map_Forall (λ _ a, open_attempt a) (applications st) ∧
  Forall (λ a, open_attempt a ∧ a_completed a = true) (drop 5 (completed_apps st)).
Proof.
  pose proof (init_store_facts w) as H0. cbv zeta in H0.
  destruct H0 as (_ & _ & Hlen & _ & _).
  assert (Hact : map_Forall (λ _ a, open_attempt a) (applications (init_store w).1)).
  { unfold init_store. rewrite run_bind.
    pose proof (for_each_inv (λ s, map_Forall (λ _ a, open_attempt a) (applications s))
                  seed_running (seq 0 3)) as H1.
    lapply H1; [clear H1; intros H1|].
    - specialize (H1 (mkStore ∅ [] empty_metrics) w (map_Forall_empty _)).
      destruct (for_each seed_running _ _ w) as [st1 w1]. cbn [fst] in H1.
      destruct (seed_finished_loop (seq 0 5) st1 w1) as (-> & _). exact H1.
    - intros x s w0 Hs. unfold seed_running. rewrite run_bind.
      destruct (choice _ w0) as [name w1]. rewrite run_bind.
      pose proof (create_running_attempt (JStr name) w1) as Ha.
      destruct (create_mock_application (JStr name) RUNNING w1) as [[i a] w2].
      by apply map_Forall_insert_2. }
  destruct (init_store w) as [st0 w0]. cbn [fst] in *. cbv zeta.
  apply (run_attempts 5 ops st0 w0).
  split; [exact Hact|]. rewrite drop_ge by lia. constructor.
Qed.

(** In every store reached from the module's initial store the status view
    answers either 404 or a RUNNING driver state: it never reports FINISHED
    or KILLED, since such jobs have left the active set. *)
Theorem status_view_only_running (w : World) (ops : list Op) (i : string) :
  let '(st0, w0) := init_store w in
  let st := (run ops st0 w0).1 in
  get_submission_status i st = status_running i ∨
  get_submission_status i st = submission_not_found.
Proof.
  destruct (init_store_running w) as [Hr _].
  destruct (init_store w) as [st0 w0]. cbn [fst] in Hr. cbv zeta.
  destruct (run_evolves ops st0 w0 Hr) as [Hr' _].
  unfold get_submission_status, status_running.
  destruct (applications (run ops st0 w0).1 !! i) as [a|] eqn:Hi; [left|by right].
  by rewrite (Hr' i a Hi).
Qed.

(** *** Loading the module *)

(** As written, the module body never gets past its first decorator: the
    seeding loops leave the global name [app] bound to the last seeded job,
    so [app.route] at line 93 raises AttributeError, whatever the random
    draws and the clock. *)
Theorem module_load_fails (w : World) :
  (load_module w).1 = LoadFails "AttributeError" (init_store w).1.
Proof.
  unfold load_module. rewrite run_bind.
  pose proof (init_store_facts w) as H. cbv zeta in H.
  destruct H as (_ & _ & Hlen & _ & _).
  destruct (init_store w) as [st w0]. cbn [fst] in *. unfold app_after_seeding.
  destruct (completed_apps st) as [|a l] using rev_ind; [discriminate Hlen|].
  by rewrite last_snoc.
Qed.

End Facts.

(** A store with one running job, submitted under the epoch calendar. *)
Lemma kill_unknown_not_found_witness :
  let w := world_of [234; 10; 3; 5; 1; 7; 4; 0; 300; 100; 2]%N [] in
  let st := (create_submission (cal := epoch_calendar) None
               (mkStore ∅ [] empty_metrics) w).1.2 in
  applications st !! "app-0-0000" = None ∧
  kill_submission "app-0-0000" st = (submission_not_found, st).
Proof.
  cbv zeta.
  split; [vm_compute; reflexivity|].
  apply kill_unknown_not_found. vm_compute. reflexivity.
Defined.

Lemma terminal_jobs_never_change_witness :
  let job := (create_mock_application (cal := epoch_calendar) (JStr "ETL Pipeline")
                FINISHED (world_of [1; 2; 3; 4; 5; 6; 7; 8; 9; 10; 11]%N [])).1.2 in
  let st := mkStore ∅ [job] empty_metrics in
  let ops := [Submit None; Tick; Kill "app-0-1234"; Status "app-0-1234";
              ListApps; GetApp (a_id job); Tick] in
  let w := world_of [234; 10; 3; 5; 1; 7; 4; 0; 300; 100; 2; 7; 0; 1]%N [] in
  all_running (applications st) ∧
  completed_apps (run (cal := epoch_calendar) ops st w).1 !! 0%nat = Some job.
Proof.
  cbv zeta. split; [apply map_Forall_empty|].
  apply (terminal_jobs_never_change (cal := epoch_calendar)).
  - apply map_Forall_empty.
  - reflexivity.
Defined.

Lemma killed_job_still_served_witness :
  let i := sample_job.1 in
  let job := sample_job.2 in
  (applications sample_store !! i = Some job ∧ a_id job = i ∧
   Forall (λ a, a_id a ≠ i) (completed_apps sample_store)) ∧
  get_application i (kill_submission i sample_store).2 =
    ok (app_json (set_terminal job KILLED)) ∧
  get_submission_status i (kill_submission i sample_store).2 = submission_not_found.
Proof.
  cbv zeta.
  assert (H1 : applications sample_store !! sample_job.1 = Some sample_job.2)
    by apply lookup_insert_eq.
  assert (H2 : a_id sample_job.2 = sample_job.1) by (vm_compute; reflexivity).
  assert (H3 : Forall (λ a, a_id a ≠ sample_job.1) (completed_apps sample_store))
    by constructor.
  split; [exact (conj H1 (conj H2 H3))|].
  exact (killed_job_still_served sample_job.1 sample_job.2 sample_store H1 H2 H3).
Defined.

Lemma progress_loop_within_totals_witness :
  let w := world_of [3; 9007199254740991; 0]%N [] in
  (map_Forall (λ _ a, within_totals a) (applications sample_store) ∧
   Forall within_totals (completed_apps sample_store)) ∧
  map_Forall (λ _ a, within_totals a)
    (applications
       (for_each update_one
          (map_to_list (applications sample_store)) sample_store w).1) ∧
  Forall within_totals
    (completed_apps
       (for_each update_one
          (map_to_list (applications sample_store)) sample_store w).1).
Proof.
  cbv zeta.
  assert (H1 : map_Forall (λ _ a, within_totals a) (applications sample_store)).
  { apply map_Forall_insert_2; [|apply map_Forall_empty].
    vm_compute. split; discriminate. }
  assert (H2 : Forall within_totals (completed_apps sample_store)) by constructor.
  split; [exact (conj H1 H2)|].
  exact (progress_loop_within_totals sample_store _ H1 H2).
Defined.

Lemma gauges_refreshed_only_by_prometheus_view_witness :
  Submit None ≠ PromMetrics ∧
  gauges (metrics (step (cal := epoch_calendar) (Submit None) sample_store
                     (world_of [] [])).1) = gauges (metrics sample_store).
Proof.
  assert (H : Submit None ≠ PromMetrics) by discriminate.
  split; [exact H|].
  exact (gauges_refreshed_only_by_prometheus_view (cal := epoch_calendar)
           (Submit None) sample_store (world_of [] []) H).
Defined.

Lemma submitted_job_default_name_witness :
  let parsed := Some (JObj [("mainClass", JStr "x")]) in
  (∃ fields, parsed = Some (JObj fields) ∧ "appResource" ∉ fields.*1) ∧
  ∃ (i : string) (a : App),
    (create_submission (cal := epoch_calendar) parsed
       sample_store (world_of [] [])).1.1 = created i ∧
    (create_submission (cal := epoch_calendar) parsed
       sample_store (world_of [] [])).1.2 =
      mkStore (<[i := a]> (applications sample_store))
              (completed_apps sample_store) (metrics sample_store) ∧
    a_id a = i ∧ a_name a = JStr "Submitted Job" ∧ a_state a = RUNNING ∧
    a_completed a = false.
Proof.
  cbv zeta.
  assert (H : ∃ fields, Some (JObj [("mainClass", JStr "x")]) = Some (JObj fields) ∧
                        "appResource" ∉ fields.*1).
  { exists [("mainClass", JStr "x")]. split; [reflexivity|].
    cbn. intros H. apply list_elem_of_singleton in H. discriminate H. }
  split; [exact H|].
  apply (submitted_job_default_name (cal := epoch_calendar)).
  right. right. exact H.
Defined.

Lemma created_duration_at_least_a_minute_witness :
  let w := world_of [234; 10; 3; 5; 1; 7; 4; 0; 300; 100; 2]%N
                    [1700000000000000; 1700000000000010; 1700000000000020] in
  clock_tape w (S (clock_pos w)) ≤ clock_tape w (S (S (clock_pos w))) ∧
  60000 ≤ a_duration (create_mock_application (cal := epoch_calendar)
                        (JStr "ETL Pipeline") RUNNING w).1.2.
Proof.
  cbv zeta.
  assert (H : clock_tape (world_of [234; 10; 3; 5; 1; 7; 4; 0; 300; 100; 2]%N
                 [1700000000000000; 1700000000000010; 1700000000000020])
                (S (clock_pos (world_of [234; 10; 3; 5; 1; 7; 4; 0; 300; 100; 2]%N
                 [1700000000000000; 1700000000000010; 1700000000000020]))) ≤
              clock_tape (world_of [234; 10; 3; 5; 1; 7; 4; 0; 300; 100; 2]%N
                 [1700000000000000; 1700000000000010; 1700000000000020])
                (S (S (clock_pos (world_of [234; 10; 3; 5; 1; 7; 4; 0; 300; 100; 2]%N
                 [1700000000000000; 1700000000000010; 1700000000000020])))))
    by (vm_compute; discriminate).
  split; [exact H|].
  exact (created_duration_at_least_a_minute (cal := epoch_calendar)
           (JStr "ETL Pipeline") RUNNING _ H).
Defined.

End SparkFacts.

(** ** The device telemetry simulator *)

Module GpuFacts.
Import Gpu.

Local Open Scope Q_scope.

(** One draw: names the value and the next world, keeping the range. *)
Ltac draw :=
  rewrite run_bind;
  lazymatch goal with
  | |- context [uniform ?a ?b ?w] =>
      let H := fresh "Hu" in
      pose proof (uniform_range a b w ltac:(lra)) as H;
      destruct (uniform a b w) as [? ?]; cbn [fst] in H
  | |- context [randint ?a ?b ?w] => destruct (randint a b w) as [? ?]
  end;
  cbv beta iota.

Lemma Qltb_true (a b : Q) : Spark.Qltb a b = true ↔ a < b.
Proof.
  unfold Spark.Qltb. rewrite negb_true_iff, <- not_true_iff_false, Qle_bool_iff.
  split; [apply Qnot_le_lt | apply Qlt_not_le].
Qed.

Lemma Qltb_false (a b : Q) : Spark.Qltb a b = false ↔ b <= a.
Proof. unfold Spark.Qltb. by rewrite negb_false_iff, Qle_bool_iff. Qed.

Lemma clamp_range (x : Q) :
  10 <= py_min 99 (py_max 10 x) ∧ py_min 99 (py_max 10 x) <= 99.
Proof.
  unfold py_min, py_max.
  destruct (Spark.Qltb 10 x) eqn:H1.
  - apply Qltb_true in H1.
    destruct (Spark.Qltb x 99) eqn:H2.
    + apply Qltb_true in H2. lra.
    + lra.
  - destruct (Spark.Qltb 10 99) eqn:H2.
    + lra.
    + apply Qltb_false in H2. lra.
Qed.

(** As [draw], keeping the range of integer draws too. *)
Ltac draw_in_range :=
  rewrite run_bind;
  lazymatch goal with
  | |- context [uniform ?a ?b ?w] =>
      let H := fresh "Hu" in
      pose proof (uniform_range a b w ltac:(lra)) as H;
      destruct (uniform a b w) as [? ?]; cbn [fst] in H
  | |- context [randint ?a ?b ?w] =>
      let H := fresh "Hr" in
      pose proof (randint_range a b w ltac:(lia)) as H;
      destruct (randint a b w) as [? ?]; cbn [fst] in H
  end;
  cbv beta iota.

Lemma py_int_bounds (a b : Z) (q : Q) :
  (0 ≤ a)%Z → inject_Z a <= q → q < inject_Z b + 1 → (a ≤ py_int q ≤ b)%Z.
Proof.
  intros Ha H1 H2.
  assert (H3 : q < inject_Z (b + 1)) by (by rewrite inject_Z_plus).
  clear H2. revert H1 H3.
  destruct q as [n d]. unfold Qle, Qlt, py_int. cbn [Qnum Qden inject_Z].
  intros H1 H2. rewrite Z.quot_div_nonneg by nia.
  split.
  - apply Z.div_le_lower_bound; lia.
  - apply Z.lt_succ_r, Z.div_lt_upper_bound; lia.
Qed.

Section Facts.
Context {mathlib : MathLib}.

Lemma update_device_spec (t : Q) (s : GPUState) (w : World) :
  let r := (update_device t s w).1 in
  device_step s r.1 r.2 ∧ sample_ok r.2 ∧
  DCGM_FI_DEV_ECC_SBE_VOL_TOTAL r.2 = 0%Z ∧
  DCGM_FI_DEV_ECC_DBE_VOL_TOTAL r.2 = 0%Z ∧
  DCGM_FI_DEV_XID_ERRORS r.2 = 0%Z.
Proof.
  unfold update_device. cbv zeta.
  draw.
  match goal with
  | |- context [py_min 99 (py_max 10 ?x)] =>
      pose proof (clamp_range x) as Hc;
      set (util := py_min 99 (py_max 10 x)) in *; clearbody util
  end.
  do 11 draw.
  cbv [mret M_ret]. cbn [fst snd].
  unfold device_step, sample_ok, percent.
  cbn [hostname uuid base_power total_memory energy add_energy
       DCGM_FI_DEV_GPU_UTIL DCGM_FI_DEV_MEM_COPY_UTIL DCGM_FI_DEV_FB_USED
       DCGM_FI_DEV_FB_FREE DCGM_FI_DEV_FB_TOTAL DCGM_FI_DEV_POWER_USAGE
       DCGM_FI_DEV_TOTAL_ENERGY_CONSUMPTION DCGM_FI_PROF_PIPE_TENSOR_ACTIVE
       DCGM_FI_PROF_DRAM_ACTIVE DCGM_FI_DEV_ECC_SBE_VOL_TOTAL
       DCGM_FI_DEV_ECC_DBE_VOL_TOTAL DCGM_FI_DEV_XID_ERRORS].
  change (util / 100) with (util * (1 # 100)).
  repeat split; try reflexivity; try lia; try lra; nra.
Qed.

#[local] Opaque update_device.

Lemma update_all_spec (t : Q) (l : list (string * GPUState)) (w : World) :
  let r := (update_all t l w).1 in Forall3 pass_step l r.1 r.2.
Proof.
  revert w. induction l as [|[name s] l IH]; intros w.
  - constructor.
  - cbn [update_all]. cbv zeta. rewrite run_bind.
    pose proof (update_device_spec t s w) as (Hd & Hs & _).
    destruct (update_device t s w) as [[s' c] w1]. cbn [fst snd] in Hd, Hs.
    cbv beta iota. rewrite run_bind.
    specialize (IH w1). cbv zeta in IH.
    destruct (update_all t l w1) as [[states children] w2].
    cbn [fst snd] in IH. cbv beta iota. cbv [mret M_ret]. cbn [fst snd].
    constructor; [|exact IH].
    repeat split; (reflexivity || apply Hd || apply Hs).
Qed.

Lemma update_metrics_spec (st : Store) (w : World) :
  let st' := (update_metrics st w).1 in
  Forall3 pass_step (gpu_states st) (gpu_states st') (registry st').
Proof.
  unfold update_metrics. cbv zeta. rewrite run_bind.
  destruct (now w) as [t w0]. cbv beta iota. rewrite run_bind.
  pose proof (update_all_spec (t # 1000000) (gpu_states st) w0) as H.
  cbv zeta in H.
  destruct (update_all (t # 1000000) (gpu_states st) w0) as [[states children] w1].
  exact H.
Qed.

#[local] Opaque update_metrics.







(** C3. After every update pass, whether run by the background loop or by a
    scrape of [/metrics], each device has one set of gauges under its own
    labels, in which used plus free framebuffer memory equals the total
    exactly, the GPU utilisation lies in [10, 99], and the memory-copy,
    tensor-pipe and DRAM percentages lie in [0, 100]; the scrape reads
    exactly these gauges. *)
Theorem update_pass_gauges_in_range (st : Store) (w : World) :
  let st' := (update_metrics st w).1 in
  (registry st').*1 = get_labels <$> (gpu_states st).*2 ∧
  Forall (λ c, sample_ok c.2) (registry st') ∧
  metrics st w = (registry st', st', (update_metrics st w).2).
Proof.
  cbv zeta. pose proof (update_metrics_spec st w) as H. cbv zeta in H.
  split; [|split].
  - induction H as [|p p' c l k k' Hp H IH]; [reflexivity|].
    cbn. destruct Hp as (_ & -> & _). by rewrite IH.
  - induction H as [|p p' c l k k' Hp H IH]; constructor; [apply Hp|exact IH].
  - unfold metrics. rewrite run_bind.
    by destruct (update_metrics st w) as [st' w'].
Qed.


(** *** Ranges of the published gauges, labels and energy *)

#[local] Transparent update_device.

Lemma update_device_ranges (t : Q) (s : GPUState) (w : World) :
  let r := (update_device t s w).1 in
  r.1 = add_energy s (DCGM_FI_DEV_POWER_USAGE r.2 * 5 * 1000) ∧
  DCGM_FI_DEV_TOTAL_ENERGY_CONSUMPTION r.2 = energy r.1 ∧
  device_ranges s r.2.
Proof.
  unfold update_device. cbv zeta.
  draw_in_range.
  match goal with
  | |- context [py_min 99 (py_max 10 ?x)] =>
      pose proof (clamp_range x) as Hc;
      set (util := py_min 99 (py_max 10 x)) in *; clearbody util
  end.
  do 11 draw_in_range.
  cbv [mret M_ret]. cbn [fst snd].
  unfold device_ranges. cbv zeta.
  cbn [energy add_energy
       DCGM_FI_DEV_GPU_UTIL DCGM_FI_DEV_MEM_COPY_UTIL DCGM_FI_DEV_FB_USED
       DCGM_FI_DEV_FB_FREE DCGM_FI_DEV_FB_TOTAL DCGM_FI_DEV_POWER_USAGE
       DCGM_FI_DEV_GPU_TEMP DCGM_FI_DEV_MEMORY_TEMP DCGM_FI_DEV_SM_CLOCK
       DCGM_FI_DEV_MEM_CLOCK DCGM_FI_DEV_PCIE_TX_THROUGHPUT
       DCGM_FI_DEV_PCIE_RX_THROUGHPUT DCGM_FI_DEV_NVLINK_BANDWIDTH_TOTAL
       DCGM_FI_DEV_TOTAL_ENERGY_CONSUMPTION DCGM_FI_PROF_PIPE_TENSOR_ACTIVE
       DCGM_FI_PROF_DRAM_ACTIVE DCGM_FI_DEV_ECC_SBE_VOL_TOTAL
       DCGM_FI_DEV_ECC_DBE_VOL_TOTAL DCGM_FI_DEV_XID_ERRORS].
  change (util / 100) with (util * (1 # 100)).
  repeat split; try reflexivity; try lia; try lra; nra.
Qed.

#[local] Opaque update_device.

(** Lifts a fact about one device update to a whole pass. *)
Lemma update_all_lift (P : GPUState → GPUState → Sample → Prop)
    (R : GPUState → Prop) (t : Q) (l : list (string * GPUState)) (w : World) :
  (∀ s w0, R s → P s (update_device t s w0).1.1 (update_device t s w0).1.2) →
  Forall (λ p, R p.2) l →
  let r := (update_all t l w).1 in
  Forall3 (λ p p' c, p'.1 = p.1 ∧ P p.2 p'.2 c.2) l r.1 r.2.
Proof.
  intros HP Hl. revert w. induction Hl as [|[name s] l Hs Hl IH]; intros w.
  - constructor.
  - cbn [update_all]. cbv zeta. rewrite run_bind.
    pose proof (HP s w Hs) as Hd.
    destruct (update_device t s w) as [[s' c] w1]. cbn [fst snd] in Hd.
    cbv beta iota. rewrite run_bind.
    specialize (IH w1). cbv zeta in IH.
    destruct (update_all t l w1) as [[states children] w2].
    cbn [fst snd] in IH. cbv beta iota. cbv [mret M_ret]. cbn [fst snd].
    constructor; [|exact IH]. split; [reflexivity|exact Hd].
Qed.

#[local] Transparent update_metrics.

Lemma update_metrics_lift (P : GPUState → GPUState → Sample → Prop)
    (R : GPUState → Prop) (st : Store) (w : World) :
  (∀ t s w0, R s → P s (update_device t s w0).1.1 (update_device t s w0).1.2) →
  Forall (λ p, R p.2) (gpu_states st) →
  let st' := (update_metrics st w).1 in
  Forall3 (λ p p' c, p'.1 = p.1 ∧ P p.2 p'.2 c.2)
          (gpu_states st) (gpu_states st') (registry st').
Proof.
  intros HP Hl. unfold update_metrics. cbv zeta. rewrite run_bind.
  destruct (now w) as [t w0]. cbv beta iota. rewrite run_bind.
  pose proof (update_all_lift P R (t # 1000000) (gpu_states st) w0 (HP _) Hl) as H.
  cbv zeta in H.
  destruct (update_all (t # 1000000) (gpu_states st) w0) as [[states children] w1].
  exact H.
Qed.

#[local] Opaque update_metrics.

Lemma factory_device_step (t : Q) (s : GPUState) (w : World) :
  factory_device s → factory_device (update_device t s w).1.1.
Proof.
  intros Hs. destruct (update_device_ranges t s w) as (-> & _). exact Hs.
Qed.

Lemma update_metrics_factory (st : Store) (w : World) :
  Forall (λ p, factory_device p.2) (gpu_states st) →
  Forall (λ p, factory_device p.2) (gpu_states (update_metrics st w).1).
Proof.
  intros Hl.
  pose proof (update_metrics_lift (λ _ s' _, factory_device s') factory_device st w
                (λ t s w0 Hs, factory_device_step t s w0 Hs) Hl) as H.
  cbv zeta in H.
  induction H as [|p p' c l k k' [_ Hp] _ IH]; constructor; [exact Hp|].
  apply IH. by apply Forall_cons in Hl as [_ ?].
Qed.

Lemma passes_factory (n : nat) (st : Store) (w : World) :
  Forall (λ p, factory_device p.2) (gpu_states st) →
  Forall (λ p, factory_device p.2) (gpu_states (passes n st w).1).
Proof.
  revert st w. induction n as [|n IH]; intros st w Hl; [exact Hl|].
  cbn [passes]. rewrite run_bind.
  pose proof (update_metrics_factory st w Hl) as H1.
  destruct (update_metrics st w) as [st1 w1]. by apply IH.
Qed.

Lemma new_gpu_factory (name : string) (w : World) :
  let s := (new_gpu name 0 w).1 in
  hostname s = name ∧ energy s = 0 ∧ factory_device s.
Proof.
  unfold new_gpu. cbv zeta. do 4 draw_in_range.
  cbv [mret M_ret]. cbn [fst]. unfold factory_device.
  cbn [hostname gpu_index model uuid energy total_memory base_util base_temp base_power].
  split; [reflexivity|]. split; [reflexivity|].
  do 3 (split; [reflexivity|]). do 3 (split; [lra|]).
  eexists. split; [eassumption|].
  replace (zero_pad 4 (pretty 0%Z)) with "0000" by (vm_compute; reflexivity).
  reflexivity.
Qed.

Lemma init_one_shape (node : string * NodeInfo) (st : Store) (w : World) :
  gpu_index_of node.2 = 0%Z →
  ∃ s, (init_one node st w).1 =
         mkStore (gpu_states st ++ [(node.1, s)]) (registry st) ∧
       hostname s = node.1 ∧ energy s = 0 ∧ factory_device s.
Proof.
  intros Hi. unfold init_one. rewrite Hi, run_bind.
  pose proof (new_gpu_factory node.1 w) as H. cbv zeta in H.
  destruct (new_gpu node.1 0 w) as [s w1]. by exists s.
Qed.

Lemma init_store_devices (w : World) :
  let st := (init_store w).1 in
  Forall2 (λ name p, p.1 = name ∧ hostname p.2 = name ∧ energy p.2 = 0 ∧
                     factory_device p.2)
          ["dgx-spark-01"; "dgx-spark-02"]%string (gpu_states st) ∧
  registry st = [].
Proof.
  unfold init_store, NODES. cbv zeta. rewrite !for_each_cons.
  destruct (init_one_shape ("dgx-spark-01", mkNode 0 "master" 9400)
              (mkStore [] []) w eq_refl) as (s1 & -> & H1).
  cbn [gpu_states registry app fst snd].
  destruct (init_one_shape ("dgx-spark-02", mkNode 0 "worker" 9401)
              (mkStore [("dgx-spark-01", s1)] [])
              (init_one ("dgx-spark-01", mkNode 0 "master" 9400)
                        (mkStore [] []) w).2 eq_refl) as (s2 & -> & H2).
  cbn [for_each mret M_ret fst snd app gpu_states registry].
  split; [|reflexivity].
  constructor; [by cbn [fst snd]|]. constructor; [by cbn [fst snd]|]. constructor.
Qed.

Lemma Forall3_right {A B C} (P : C → Prop) (R : A → B → C → Prop)
    (l : list A) (k : list B) (k' : list C) :
  (∀ x y z, R x y z → P z) → Forall3 R l k k' → Forall P k'.
Proof. intros HR. induction 1; constructor; eauto. Qed.

Lemma device_derived_ranges (t : Q) (s : GPUState) (w : World) :
  derived_ranges (update_device t s w).1.2 ∧ link_ranges (update_device t s w).1.2.
Proof.
  destruct (update_device_ranges t s w) as (_ & _ & H).
  destruct (update_device t s w) as [[s' c] w1]. cbn [fst snd] in *.
  unfold device_ranges in H. cbv zeta in H.
  destruct H as (Hu & Hm & Ht & Hd & _ & _ & _ & (Hsm & Hmc) & (Htx & Hrx) & Hnv & Hz).
  split; [by unfold derived_ranges|]. unfold link_ranges.
  set (util := DCGM_FI_DEV_GPU_UTIL c) in *.
  pose proof (py_int_bounds 80 792 (util * (1 # 100) * 800) ltac:(lia)
                ltac:(unfold inject_Z; lra) ltac:(unfold inject_Z; lra)).
  pose proof (py_int_bounds 40 396 (util * (1 # 100) * 400) ltac:(lia)
                ltac:(unfold inject_Z; lra) ltac:(unfold inject_Z; lra)).
  pose proof (py_int_bounds 1500000 14850000 (util * (1 # 100) * 15000000) ltac:(lia)
                ltac:(unfold inject_Z; lra) ltac:(unfold inject_Z; lra)).
  pose proof (py_int_bounds 1200000 11880000 (util * (1 # 100) * 12000000) ltac:(lia)
                ltac:(unfold inject_Z; lra) ltac:(unfold inject_Z; lra)).
  split; [lia|]. lra.
Qed.

Lemma device_factory_ranges (t : Q) (s : GPUState) (w : World) :
  factory_device s → factory_ranges (update_device t s w).1.2.
Proof.
  intros (_ & _ & Hmem & _ & Htemp & Hpow & _).
  destruct (update_device_ranges t s w) as (_ & _ & H).
  destruct (update_device t s w) as [[s' c] w1]. cbn [fst snd] in *.
  unfold device_ranges in H. cbv zeta in H.
  destruct H as (Hu & _ & _ & _ & (Htot & Hused & Hfree) & Ht & Hp & _).
  set (util := DCGM_FI_DEV_GPU_UTIL c) in *.
  rewrite Hmem in Htot, Hused, Hfree.
  pose proof (py_int_bounds 45875 104202
                (inject_Z 131072 * ((3 # 10) + (5 # 10) * (util * (1 # 100))))
                ltac:(lia) ltac:(unfold inject_Z; lra) ltac:(unfold inject_Z; lra)) as Hb.
  rewrite <- Hused in Hb.
  unfold factory_ranges. repeat split; try lia; lra.
Qed.

(** Whatever the store, every pass sets the three error gauges to zero and
    publishes memory-copy, tensor-pipe and DRAM utilisations that are not
    negative and do not exceed the GPU utilisation it publishes. *)
Theorem pass_derived_gauges (st : Store) (w : World) :
  Forall (λ c, derived_ranges c.2) (registry (update_metrics st w).1).
Proof.
  pose proof (update_metrics_lift (λ _ _ c, derived_ranges c) (λ _, True) st w
                (λ t s w0 _, proj1 (device_derived_ranges t s w0))) as H.
  lapply H; [clear H; intros H|by apply Forall_true].
  cbv zeta in H. eapply Forall3_right; [|exact H]. by intros ? ? ? [_ ?].
Qed.

(** Whatever the store, every pass publishes an SM clock in [1530, 2342]
    MHz, a memory clock in [1620, 2016] MHz, PCIe throughput in
    [1400000, 14950000] (TX) and [1100000, 11980000] (RX) KB/s and an NVLink
    bandwidth in [10, 208] GB/s. *)
Theorem pass_clock_and_link_gauges (st : Store) (w : World) :
  Forall (λ c, link_ranges c.2) (registry (update_metrics st w).1).
Proof.
  pose proof (update_metrics_lift (λ _ _ c, link_ranges c) (λ _, True) st w
                (λ t s w0 _, proj2 (device_derived_ranges t s w0))) as H.
  lapply H; [clear H; intros H|by apply Forall_true].
  cbv zeta in H. eapply Forall3_right; [|exact H]. by intros ? ? ? [_ ?].
Qed.

(** For the devices that the module creates, after any number of passes,
    the next pass publishes a power draw in [83, 204.2] W, a GPU temperature
    in [45.5, 81.75] C with the memory 5 to 10 degrees below it, a total of
    131072 MiB of framebuffer memory, 45875 to 104202 MiB of it used and
    26870 to 85197 MiB free. *)
Theorem factory_devices_gauges (w : World) (m : nat) :
  let '(st0, w0) := init_store w in
  let '(st, w1) := passes m st0 w0 in
  Forall (λ c, factory_ranges c.2) (registry (update_metrics st w1).1).
Proof.
  pose proof (init_store_devices w) as [H0 _]. cbv zeta in H0.
  destruct (init_store w) as [st0 w0]. cbn [fst] in H0.
  assert (Hf0 : Forall (λ p, factory_device p.2) (gpu_states st0)).
  { clear -H0. induction H0 as [|? ? ? ? (_ & _ & _ & ?)]; by constructor. }
  pose proof (passes_factory m st0 w0 Hf0) as Hf.
  destruct (passes m st0 w0) as [st w1]. cbn [fst] in Hf.
  pose proof (update_metrics_lift (λ _ _ c, factory_ranges c) factory_device st w1
                (λ t s w2 Hs, device_factory_ranges t s w2 Hs) Hf) as H.
  cbv zeta in H. eapply Forall3_right; [|exact H]. by intros ? ? ? [_ ?].
Qed.

(** When the module is loaded there are two devices, [dgx-spark-01] and
    [dgx-spark-02] in this order, each with index 0, zero energy, baselines
    in the ranges of [GPUState.__init__] and a UUID of the form
    [GPU-<host>-0000-<four digits>]; no gauge is set yet, and the health
    view counts two devices. *)
Theorem devices_at_load (w : World) :
  let st := (init_store w).1 in
  (gpu_states st).*1 = ["dgx-spark-01"; "dgx-spark-02"]%string ∧
  Forall (λ p, hostname p.2 = p.1 ∧ energy p.2 = 0 ∧ factory_device p.2)
         (gpu_states st) ∧
  registry st = [] ∧
  health st = JObj [("status", JStr "healthy"); ("service", JStr "gpu-simulator");
                    ("gpus", JInt 2)].
Proof.
  cbv zeta. destruct (init_store_devices w) as [H Hr].
  destruct (init_store w) as [st w']. cbn [fst] in *. unfold health.
  apply Forall2_cons_inv_l in H as (p1 & k1 & (E1 & Hh1 & He1 & Hf1) & H & ->).
  apply Forall2_cons_inv_l in H as (p2 & k2 & (E2 & Hh2 & He2 & Hf2) & H & ->).
  apply Forall2_nil_inv_l in H as ->.
  cbn [fmap list_fmap length]. rewrite E1, E2.
  split; [reflexivity|]. split; [|split; [exact Hr|reflexivity]].
  constructor; [by rewrite E1|]. constructor; [by rewrite E2|]. constructor.
Qed.

Lemma pass_labels (st : Store) (w : World) :
  let st' := (update_metrics st w).1 in
  (gpu_states st').*1 = (gpu_states st).*1 ∧
  get_labels <$> (gpu_states st').*2 = get_labels <$> (gpu_states st).*2 ∧
  (registry st').*1 = get_labels <$> (gpu_states st).*2.
Proof.
  cbv zeta.
  pose proof (update_metrics_lift (λ s s' _, get_labels s' = get_labels s)
                (λ _, True) st w) as H.
  lapply H; [clear H; intros H|].
  - lapply H; [clear H; intros H|by apply Forall_true]. cbv zeta in H.
    pose proof (update_metrics_spec st w) as H2. cbv zeta in H2.
    split; [|split].
    + clear H2.
      induction H as [|p p' c l k k' [Hp _] _ IH]; [done|]. cbn. by rewrite Hp, IH.
    + clear H2.
      induction H as [|p p' c l k k' [_ Hp] _ IH]; [done|]. cbn. by rewrite Hp, IH.
    + clear H.
      induction H2 as [|p p' c l k k' (_ & Hp & _) _ IH]; [done|]. cbn.
      by rewrite Hp, IH.
  - intros t s w0 _. by destruct (update_device_ranges t s w0) as (-> & _).
Qed.

(** Update passes never change the roster or a device's labels: after any
    number of passes the host names, the label sets and the device count of
    the health view are those of the start, and after at least one pass the
    gauges are filed under exactly these label sets. *)
Theorem labels_and_roster_stable (n : nat) (st : Store) (w : World) :
  let st' := (passes n st w).1 in
  (gpu_states st').*1 = (gpu_states st).*1 ∧
  get_labels <$> (gpu_states st').*2 = get_labels <$> (gpu_states st).*2 ∧
  (n ≠ 0%nat → (registry st').*1 = get_labels <$> (gpu_states st).*2) ∧
  health st' = health st.
Proof.
  revert st w. induction n as [|n IH]; intros st w; cbv zeta.
  - cbn. done.
  - cbn [passes]. rewrite run_bind.
    pose proof (pass_labels st w) as (H1 & H2 & H3).
    destruct (update_metrics st w) as [st1 w1]. cbn [fst] in H1, H2, H3.
    cbv beta iota. specialize (IH st1 w1). cbv zeta in IH.
    destruct IH as (I1 & I2 & I3 & I4).
    split; [by rewrite I1|]. split; [by rewrite I2|]. split.
    + intros _. destruct n as [|n]; [exact H3|].
      rewrite I3 by done. exact H2.
    + rewrite I4. unfold health. f_equal. f_equal. f_equal. f_equal. f_equal.
      apply (f_equal length) in H1. rewrite !length_fmap in H1. by rewrite H1.
Qed.

Lemma pass_energy_bounds (lo hi : Q) (st : Store) (w : World) :
  Forall (λ p, factory_device p.2 ∧ lo <= energy p.2 ∧ energy p.2 <= hi)
         (gpu_states st) →
  Forall (λ p, factory_device p.2 ∧
               lo + 415000 <= energy p.2 ∧ energy p.2 <= hi + 1021000)
         (gpu_states (update_metrics st w).1).
Proof.
  intros Hl.
  pose proof (update_metrics_lift
                (λ _ s' _, factory_device s' ∧
                           lo + 415000 <= energy s' ∧ energy s' <= hi + 1021000)
                (λ s, factory_device s ∧ lo <= energy s ∧ energy s <= hi) st w) as H.
  lapply H; [clear H; intros H|].
  - specialize (H Hl). cbv zeta in H.
    clear Hl. induction H as [|p p' c l k k' [_ Hp] _ IH]; by constructor.
  - intros t s w0 (Hs & Hlo & Hhi).
    pose proof (device_factory_ranges t s w0 Hs) as ((Hp1 & Hp2) & _).
    destruct (update_device_ranges t s w0) as (E & _ & _).
    destruct (update_device t s w0) as [[s' c] w1]. cbn [fst snd] in *.
    subst s'. split; [exact Hs|]. cbn [energy add_energy]. lra.
Qed.

(** The energy of a device counts passes, not time: after [n] passes from
    the module's initial state, whatever the clock read, every device's
    energy lies between 415000 n and 1021000 n millijoules. *)
Theorem energy_counts_passes (w : World) (n : nat) :
  let '(st0, w0) := init_store w in
  Forall (λ p, 415000 * inject_Z (Z.of_nat n) <= energy p.2 ∧
               energy p.2 <= 1021000 * inject_Z (Z.of_nat n))
         (gpu_states (passes n st0 w0).1).
Proof.
  pose proof (init_store_devices w) as [H0 _]. cbv zeta in H0.
  destruct (init_store w) as [st0 w0]. cbn [fst] in H0.
  assert (Hf0 : Forall (λ p, factory_device p.2 ∧ 0 <= energy p.2 ∧ energy p.2 <= 0)
                       (gpu_states st0)).
  { clear -H0. induction H0 as [|? ? ? ? (_ & _ & He & ?)]; constructor; [|done].
    rewrite He. split; [done|]. split; lra. }
  clear H0.
  assert (Hgen : ∀ n st w1 lo hi,
    Forall (λ p, factory_device p.2 ∧ lo <= energy p.2 ∧ energy p.2 <= hi)
           (gpu_states st) →
    Forall (λ p, lo + 415000 * inject_Z (Z.of_nat n) <= energy p.2 ∧
                 energy p.2 <= hi + 1021000 * inject_Z (Z.of_nat n))
           (gpu_states (passes n st w1).1)).
  { clear. induction n as [|n IH]; intros st w1 lo hi Hl.
    - cbn [passes]. cbv [mret M_ret]. cbn [fst].
      eapply Forall_impl; [exact Hl|]. intros p (_ & ? & ?).
      change (inject_Z (Z.of_nat 0)) with 0. split; lra.
    - cbn [passes]. rewrite run_bind.
      pose proof (pass_energy_bounds lo hi st w1 Hl) as H1.
      destruct (update_metrics st w1) as [st1 w2]. cbn [fst] in H1.
      cbv beta iota. specialize (IH st1 w2 _ _ H1).
      eapply Forall_impl; [exact IH|]. intros p [? ?].
      rewrite Nat2Z.inj_succ, <- Z.add_1_r, inject_Z_plus.
      change (inject_Z 1) with 1. split; lra. }
  specialize (Hgen n st0 w0 0 0 Hf0).
  eapply Forall_impl; [exact Hgen|]. intros p [? ?]. split; lra.
Qed.

(** *** Energy and the clock *)

Lemma Forall3_left_mid {A B C} (P : A → B → Prop) (R : A → B → C → Prop)
    (l : list A) (k : list B) (k' : list C) :
  (∀ x y z, R x y z → P x y) → Forall3 R l k k' → Forall2 P l k.
Proof. intros HR. induction 1; constructor; eauto. Qed.

Lemma passes_energy_bounds (n : nat) (st : Store) (w : World) (lo hi : Q) :
  Forall (λ p, factory_device p.2 ∧ lo <= energy p.2 ∧ energy p.2 <= hi)
         (gpu_states st) →
  Forall (λ p, factory_device p.2 ∧
               lo + 415000 * inject_Z (Z.of_nat n) <= energy p.2 ∧
               energy p.2 <= hi + 1021000 * inject_Z (Z.of_nat n))
         (gpu_states (passes n st w).1).
Proof.
  revert st w lo hi. induction n as [|n IH]; intros st w lo hi Hl.
  - cbn [passes]. cbv [mret M_ret]. cbn [fst].
    eapply Forall_impl; [exact Hl|]. intros p (? & ? & ?).
    change (inject_Z (Z.of_nat 0)) with 0. split; [done|]. split; lra.
  - cbn [passes]. rewrite run_bind.
    pose proof (pass_energy_bounds lo hi st w Hl) as H1.
    destruct (update_metrics st w) as [st1 w1]. cbn [fst] in H1.
    cbv beta iota. specialize (IH st1 w1 _ _ H1).
    eapply Forall_impl; [exact IH|]. intros p (? & ? & ?).
    rewrite Nat2Z.inj_succ, <- Z.add_1_r, inject_Z_plus.
    change (inject_Z 1) with 1. split; [done|]. split; lra.
Qed.

#[local] Transparent update_metrics update_device.

Lemma update_device_clock (t : Q) (s : GPUState) (w : World) :
  clock_tape (update_device t s w).2 = clock_tape w.
Proof. destruct w as [rt rp ct cp]. reflexivity. Qed.

Lemma update_all_clock (t : Q) (l : list (string * GPUState)) (w : World) :
  clock_tape (update_all t l w).2 = clock_tape w.
Proof.
  revert w. induction l as [|[name s] l IH]; intros w; [reflexivity|].
  cbn [update_all]. rewrite run_bind.
  pose proof (update_device_clock t s w) as Hd.
  destruct (update_device t s w) as [[s' c] w1]. cbn [snd] in Hd.
  cbv beta iota. rewrite run_bind.
  specialize (IH w1). destruct (update_all t l w1) as [[states children] w2].
  cbv beta iota. cbv [mret M_ret]. cbn [snd] in IH |- *. by rewrite IH.
Qed.

Lemma update_metrics_clock (st : Store) (w : World) :
  clock_tape (update_metrics st w).2 = clock_tape w.
Proof.
  unfold update_metrics. rewrite run_bind.
  destruct w as [rt rp ct cp]. cbv [now]. cbv beta iota. rewrite run_bind.
  pose proof (update_all_clock (ct cp # 1000000) (gpu_states st)
                (mkWorld rt rp ct (S cp))) as H.
  destruct (update_all _ (gpu_states st) _) as [[states children] w2].
  cbv beta iota. cbv [mret M_ret]. cbn [snd] in H |- *. exact H.
Qed.

#[local] Opaque update_metrics update_device.

Lemma scrape_energy_step (st : Store) (w : World) :
  Forall (λ p, factory_device p.2) (gpu_states st) →
  Forall2 (λ p p', energy p.2 + 415000 <= energy p'.2)
          (gpu_states st) (gpu_states (metrics st w).1.2).
Proof.
  intros Hl. unfold metrics. rewrite run_bind.
  pose proof (update_metrics_lift
                (λ s s' _, energy s + 415000 <= energy s') factory_device st w) as H.
  lapply H; [clear H; intros H|].
  - specialize (H Hl). cbv zeta in H.
    destruct (update_metrics st w) as [st' w']. cbn [fst snd] in *.
    eapply Forall3_left_mid; [|exact H]. by intros ? ? ? [_ ?].
  - intros t s w0 Hs.
    pose proof (device_factory_ranges t s w0 Hs) as ((Hp1 & Hp2) & _).
    destruct (update_device_ranges t s w0) as (E & _ & _).
    destruct (update_device t s w0) as [[s' c] w1]. cbn [fst snd] in *.
    subst s'. cbn [energy add_energy]. lra.
Qed.

(** C4. The accumulator does not integrate power over elapsed time.  With
    the clock standing still at an instant [t], so that no time elapses
    between any two passes, [n] passes from the module's initial state
    still raise the energy of every device to at least 415000 n
    millijoules, and one more scrape of [/metrics] adds at least another
    415000: every pass adds the power of 5 seconds, whatever the clock
    reads. *)
Theorem energy_grows_while_clock_stands_still (draws : nat → N) (t : Z) (n : nat) :
  let w := mkWorld draws 0 (λ _, t) 0 in
  let '(st0, w0) := init_store w in
  let '(st, w1) := passes n st0 w0 in
  (clock_tape w1 (clock_pos w1) = t ∧ clock_tape w1 (S (clock_pos w1)) = t) ∧
  Forall (λ p, 415000 * inject_Z (Z.of_nat n) <= energy p.2) (gpu_states st) ∧
  Forall2 (λ p p', energy p.2 + 415000 <= energy p'.2)
          (gpu_states st) (gpu_states (metrics st w1).1.2).
Proof.
  pose proof (init_store_devices (mkWorld draws 0 (λ _, t) 0)) as [H0 _].
  cbv zeta in H0 |- *.
  assert (Hclock : ∀ k, clock_tape (init_store (mkWorld draws 0 (λ _, t) 0)).2 k = t).
  { intros k.
    unfold init_store.
    assert (Hgen : ∀ (l : list (string * NodeInfo)) (s : Store) (w : World),
              clock_tape (for_each init_one l s w).2 = clock_tape w).
    { clear. induction l as [|x l IH]; intros s w; [reflexivity|].
      rewrite for_each_cons, IH. destruct w as [rt rp ct cp]. reflexivity. }
    by rewrite Hgen. }
  destruct (init_store (mkWorld draws 0 (λ _, t) 0)) as [st0 w0].
  cbn [fst snd] in H0, Hclock.
  assert (Hf0 : Forall (λ p, factory_device p.2 ∧ 0 <= energy p.2 ∧ energy p.2 <= 0)
                       (gpu_states st0)).
  { clear -H0. induction H0 as [|? ? ? ? (_ & _ & He & ?)]; constructor; [|done].
    rewrite He. split; [done|]. split; lra. }
  pose proof (passes_energy_bounds n st0 w0 0 0 Hf0) as Hn.
  assert (Hclock' : ∀ k, clock_tape (passes n st0 w0).2 k = t).
  { intros k. rewrite <- (Hclock k). clear.
    revert st0 w0. induction n as [|n IH]; intros st0 w0; [reflexivity|].
    cbn [passes]. rewrite run_bind.
    pose proof (update_metrics_clock st0 w0) as Hc.
    destruct (update_metrics st0 w0) as [st1 w1]. cbn [snd] in Hc.
    cbv beta iota. by rewrite IH, Hc. }
  destruct (passes n st0 w0) as [st w1]. cbn [fst snd] in Hn, Hclock'.
  split; [by rewrite !Hclock'|]. split.
  - eapply Forall_impl; [exact Hn|]. intros p (_ & ? & _). lra.
  - apply scrape_energy_step. eapply Forall_impl; [exact Hn|]. by intros p [? _].
Qed.

End Facts.

End GpuFacts.
